(** * Operational scripts of the serverless pipeline: a shallow embedding

    Two Node.js scripts and a helper are modelled:
    - [scripts/test-pipeline.js] (module [TestPipeline]): readiness checks,
      fixture upload, bounded polling of the managed table, record-shape
      validation and a synchronous function invocation;
    - [scripts/setup.js] (module [Setup]): the bootstrap sequence that shells
      out to npm, docker, docker-compose and the serverless CLI;
    - the notification helper (module [Sns]): four wrappers of the SNS
      client.

    The scripts are sequences of calls into the outside world.  A script is
    embedded as a function from the history of events performed so far to a
    completion (normal return, thrown exception, or [process.exit]) together
    with the events it performed.  The outside world is a record of oracles,
    one per external operation; an oracle sees the history, so it stands for
    any deterministic environment. *)

From Stdlib Require Import ZArith NArith List String Bool Lia.
From Stdlib Require Import DecimalString DecimalN Sorted.
Import ListNotations.

#[local] Set Warnings "-register-all".

Local Open Scope string_scope.
Local Open Scope list_scope.
Local Open Scope Z_scope.

(** ** JavaScript values, exceptions and the completion monad *)

Module Js.

(** The part of the JavaScript value universe the scripts inspect.  Numbers
    are restricted to integers: the only numeric operation of the scripts on
    received data is the strict comparison of a status code with [201]. *)
Inductive JSValue : Type :=
| JUndefined
| JNull
| JBool (b : bool)
| JNum (n : Z)
| JStr (s : string)
| JArr (elems : list JSValue)
| JObj (props : list (string * JSValue)).

(** An [Error] object; the scripts only ever read [err.message]. *)
Record JsError : Type := MkError { message : string }.

(** Own-property lookup in the property list of an object. *)
Fixpoint lookup_prop (name : string) (props : list (string * JSValue))
  : option JSValue :=
  match props with
  | [] => None
  | (k, v) :: rest => if String.eqb k name then Some v else lookup_prop name rest
  end.

(** [v.name] for the property names the scripts read ([statusCode], [body],
    [id]): none of them is defined on a built-in prototype, so the read
    yields the own property or [undefined]; reading a property of [null] or
    [undefined] throws a [TypeError]. *)
Definition get_prop (v : JSValue) (name : string) : JsError + JSValue :=
  match v with
  | JUndefined =>
      inl (MkError ("Cannot read properties of undefined (reading '" ++ name ++ "')")%string)
  | JNull =>
      inl (MkError ("Cannot read properties of null (reading '" ++ name ++ "')")%string)
  | JObj props =>
      match lookup_prop name props with
      | Some x => inr x
      | None => inr JUndefined
      end
  | JBool _ | JNum _ | JStr _ | JArr _ => inr JUndefined
  end.

(** [v === n] for a number literal [n]. *)
Definition strict_eq_num (v : JSValue) (n : Z) : bool :=
  match v with
  | JNum m => Z.eqb m n
  | _ => false
  end.

(** Whether converting [v] to a string throws, as a template literal
    [`${v}`] or [String(v)] converts it.  The properties of these values are
    data: an object with an own property [toString] has no callable
    [toString], and its [valueOf], own or inherited, yields no primitive,
    so the conversion throws a [TypeError]; another object is converted by
    [Object.prototype.toString].  An array is converted by [join], which
    converts its elements, [null] and [undefined] apart. *)
Fixpoint ToString_throws (v : JSValue) : bool :=
  match v with
  | JObj props =>
      match lookup_prop "toString" props with
      | Some _ => true
      | None => false
      end
  | JArr elems => existsb ToString_throws elems
  | JUndefined | JNull | JBool _ | JNum _ | JStr _ => false
  end.

(** The value [v] spliced into a text: the conversion throws, or the text
    shows [v]. *)
Definition interpolated (v : JSValue) : JsError + JSValue :=
  if ToString_throws v
  then inl (MkError "Cannot convert object to primitive value")
  else inr v.

(** How a piece of code completes. [Exit] is [process.exit(code)]: it ends
    the process and cannot be caught. *)
Inductive Completion (A : Type) : Type :=
| Normal (a : A)
| Throw (e : JsError)
| Exit (code : Z).

Arguments Normal {A} a.
Arguments Throw {A} e.
Arguments Exit {A} code.

Section Monad.

Context {Event : Type}.

(** A computation reads the events performed before it started and yields
    its completion and the events it performed itself, oldest first. *)
Definition M (A : Type) : Type := list Event -> Completion A * list Event.

Definition ret {A} (a : A) : M A := fun _ => (Normal a, []).

Definition bind {A B} (m : M A) (f : A -> M B) : M B :=
  fun h =>
    let (c, t1) := m h in
    match c with
    | Normal a => let (c', t2) := f a (h ++ t1) in (c', t1 ++ t2)
    | Throw e => (Throw e, t1)
    | Exit code => (Exit code, t1)
    end.

Definition throw {A} (e : JsError) : M A := fun _ => (Throw e, []).

(** [try { m } catch (err) { handler err }] *)
Definition try_catch {A} (m : M A) (handler : JsError -> M A) : M A :=
  fun h =>
    let (c, t1) := m h in
    match c with
    | Throw e => let (c', t2) := handler e (h ++ t1) in (c', t1 ++ t2)
    | Normal a => (Normal a, t1)
    | Exit code => (Exit code, t1)
    end.

(** [process.exit(code)] *)
Definition process_exit {A} (code : Z) : M A := fun _ => (Exit code, []).

(** An event with no answer from the outside (console output, a timer). *)
Definition emit (ev : Event) : M unit := fun _ => (Normal tt, [ev]).

(** A call answered by an oracle of the environment; the event records the
    answer. *)
Definition call {R} (oracle : list Event -> R) (record : R -> Event) : M R :=
  fun h => let r := oracle h in (Normal r, [record r]).

(** A call that may fail: a rejected promise under [await], or a
    synchronous call that throws. *)
Definition call_throwing {R} (oracle : list Event -> JsError + R)
    (record : JsError + R -> Event) : M R :=
  bind (call oracle record)
       (fun r => match r with inl e => throw e | inr v => ret v end).

(** Lifting of a pure partial operation (a property read, [JSON.parse]). *)
Definition lift {R} (r : JsError + R) : M R :=
  match r with inl e => throw e | inr v => ret v end.

(** [for (let i = lo; i < hi; i++) body], where the body either leaves the
    enclosing function with a value ([Some v], a [return] statement) or
    falls through to the next iteration ([None]).  The counter strictly
    approaches [hi], so [fuel] iterations with [hi - lo <= fuel] suffice
    (lemma [for_loop_fuel_enough]). *)
Fixpoint for_loop_fuel {R} (fuel : nat) (i hi : Z) (body : Z -> M (option R))
  : M (option R) :=
  match fuel with
  | O => ret None
  | S fuel' =>
      if i <? hi then
        bind (body i) (fun r =>
          match r with
          | Some v => ret (Some v)
          | None => for_loop_fuel fuel' (i + 1) hi body
          end)
      else ret None
  end.

Definition for_loop {R} (lo hi : Z) (body : Z -> M (option R)) : M (option R) :=
  for_loop_fuel (Z.to_nat (hi - lo)) lo hi body.

(** [wp m h Q]: run after the history [h], [m] completes in a way and with
    events that satisfy [Q]. *)
Definition wp {A} (m : M A) (h : list Event)
    (Q : Completion A -> list Event -> Prop) : Prop :=
  Q (fst (m h)) (snd (m h)).

End Monad.

Arguments M Event A : clear implicits.

Module Notations.
Declare Scope js_scope.
Delimit Scope js_scope with js.
Notation "x <- m ;; k" := (bind m (fun x => k))
  (at level 61, m at next level, right associativity) : js_scope.
Notation "m ;; k" := (bind m (fun _ => k))
  (at level 61, right associativity) : js_scope.
End Notations.

End Js.

(** ** The test runner, [scripts/test-pipeline.js] *)

Module TestPipeline.

Import Js Js.Notations.
Local Open Scope js_scope.

(** *** Requests, answers and events *)

(** A record of the managed table, as the document client returns it: a
    plain object, its attributes in order. *)
Definition Item : Type := list (string * JSValue).

(** The [data] object of a scan; [Items] may be missing. *)
Record ScanOutput : Type := { Items : option (list Item) }.

Record ScanParams : Type := { TableName : string; Limit : Z }.

Record PutObjectParams : Type :=
  { Bucket : string; Key : string; Body : string; ContentType : string }.

(** The product sent by the API test; the price [199.99] is kept in
    hundredths. *)
Record Product : Type :=
  { nome : string; categoria : string; preco_hundredths : Z; estoque : Z }.

(** The API-gateway style event handed to the function. *)
Record ApiEvent : Type :=
  { httpMethod : string; body : Product; sourceIp : string }.

Record InvokeParams : Type :=
  { FunctionName : string; InvocationType : string; Payload : ApiEvent }.

Inductive Color : Type := reset | green | red | yellow | blue | magenta.

(** The texts the script prints, one constructor per template of the
    source, with the values interpolated into it. *)
Inductive Text : Type :=
| Separator                               (* '='.repeat(60) *)
| Banner                                  (* TESTE AUTOMATIZADO DO PIPELINE SERVERLESS *)
| CheckingLocalStack
| LocalStackUp
| LocalStackDown
| CheckingBucket (bucket : string)
| BucketExists (bucket : string)
| BucketMissing (bucket : string)
| CheckingTable (table : string)
| TableAccessible (table : string)
| TableInaccessible (table : string) (msg : string)
| Uploading
| FixtureNotFound (path : string)
| Uploaded
| UploadError (msg : string)
| WaitingForLambda
| ProcessedDataFound
| AttemptWaiting (attempt maxAttempts : Z) (* Tentativa i+1/maxAttempts *)
| ScanError (msg : string)
| Timeout
| VerifyingData
| TotalRecords (count : Z)
| ExampleRecord
| AllFieldsPresent
| MissingFields (fields : list string)    (* joined with ', ' *)
| NoRecords
| VerifyError (msg : string)
| TestingApi
| ApiWorking
| RecordCreated (id : JSValue)
| ApiStatus (statusCode : JSValue)
| ApiError (msg : string)
| CleaningUp
| CleanupHint
| CriticalLocalStack
| ResourcesUnavailable
| AllPassed
| SomeFailed
| Fatal (msg : string).

(** The marks the helper functions put before a text. *)
Inductive Mark : Type := NoMark | CheckMark | CrossMark | InfoMark | WarnMark.

Inductive Event : Type :=
| ConsoleLog (c : Color) (m : Mark) (t : Text)   (* log(message, color) *)
| ConsoleLogText (t : Text)               (* console.log(text) *)
| ConsoleLogItem (i : Item)               (* console.log(JSON.stringify(item, null, 2)) *)
| ConsoleLogValue (v : JSValue)           (* console.log(value) *)
| ConsoleError (e : JsError)              (* console.error(err) *)
| ListBuckets (r : JsError + unit)
| HeadBucket (bucket : string) (r : JsError + unit)
| Scan (p : ScanParams) (r : JsError + ScanOutput)
| ExistsSync (path : string) (r : bool)
| ReadFileSync (path : string) (r : JsError + string)
| PutObject (p : PutObjectParams) (r : JsError + unit)
| Invoke (p : InvokeParams) (r : JsError + JSValue)
| Sleep (ms : Z).

Definition History : Type := list Event.

(** The outside world: the emulator behind the SDK clients, the file system
    and the runtime's [JSON.parse] (a pure function of its argument). *)
Record Env : Type :=
  { s3_listBuckets : History -> JsError + unit;
    s3_headBucket : string -> History -> JsError + unit;
    s3_putObject : PutObjectParams -> History -> JsError + unit;
    dynamodb_scan : ScanParams -> History -> JsError + ScanOutput;
    lambda_invoke : InvokeParams -> History -> JsError + JSValue;
    fs_existsSync : string -> History -> bool;
    fs_readFileSync : string -> History -> JsError + string;
    JSON_parse : JSValue -> JsError + JSValue;
    (** [path.join(__dirname, '../data/input/produtos.csv')] *)
    TEST_FILE : string }.

Definition BUCKET_NAME : string := "data-processing-bucket".
Definition TABLE_NAME : string := "ProcessedData".

Definition Script : Type -> Type := M Event.

Section Functions.

Variable env : Env.

(** *** Console helpers *)

Definition log (t : Text) (m : Mark) (color : Color) : Script unit :=
  emit (ConsoleLog color m t).

Definition console_log (t : Text) : Script unit := emit (ConsoleLogText t).

Definition success (t : Text) : Script unit := log t CheckMark green.
Definition error (t : Text) : Script unit := log t CrossMark red.
Definition info (t : Text) : Script unit := log t InfoMark blue.
Definition warning (t : Text) : Script unit := log t WarnMark yellow.

(** [await sleep(ms)]: a timer that always resolves. *)
Definition sleep (ms : Z) : Script unit := emit (Sleep ms).

(** *** Readiness checks *)

Definition checkLocalStack : Script bool :=
  info CheckingLocalStack ;;
  try_catch
    (call_throwing (s3_listBuckets env) ListBuckets ;;
     success LocalStackUp ;;
     ret true)
    (fun _ =>
       error LocalStackDown ;;
       ret false).

Definition checkBucket : Script bool :=
  info (CheckingBucket BUCKET_NAME) ;;
  try_catch
    (call_throwing (s3_headBucket env BUCKET_NAME) (HeadBucket BUCKET_NAME) ;;
     success (BucketExists BUCKET_NAME) ;;
     ret true)
    (fun _ =>
       error (BucketMissing BUCKET_NAME) ;;
       ret false).

Definition checkTable : Script bool :=
  info (CheckingTable TABLE_NAME) ;;
  try_catch
    (let params := {| TableName := TABLE_NAME; Limit := 1 |} in
     call_throwing (dynamodb_scan env params) (Scan params) ;;
     success (TableAccessible TABLE_NAME) ;;
     ret true)
    (fun err =>
       error (TableInaccessible TABLE_NAME (message err)) ;;
       ret false).

(** *** Upload of the fixture *)

Definition uploadTestFile : Script bool :=
  info Uploading ;;
  exists_ <- call (fs_existsSync env (TEST_FILE env)) (ExistsSync (TEST_FILE env)) ;;
  if negb exists_ then
    error (FixtureNotFound (TEST_FILE env)) ;;
    ret false
  else
    fileContent <- call_throwing (fs_readFileSync env (TEST_FILE env))
                                 (ReadFileSync (TEST_FILE env)) ;;
    let params := {| Bucket := BUCKET_NAME;
                     Key := "input/produtos.csv";
                     Body := fileContent;
                     ContentType := "text/csv" |} in
    try_catch
      (call_throwing (s3_putObject env params) (PutObject params) ;;
       success Uploaded ;;
       ret true)
      (fun err =>
         error (UploadError (message err)) ;;
         ret false).

(** *** Polling *)

(** [result.Items && result.Items.length > 0] *)
Definition has_items (result : ScanOutput) : bool :=
  match Items result with
  | None => false
  | Some items => 0 <? Z.of_nat (List.length items)
  end.

(** One pass through the body of the polling loop: [Some true] is the
    [return true] of the source, [None] falls through to [i++]. *)
Definition poll_attempt (maxAttempts interval i : Z) : Script (option bool) :=
  try_catch
    (let params := {| TableName := TABLE_NAME; Limit := 1 |} in
     result <- call_throwing (dynamodb_scan env params) (Scan params) ;;
     if has_items result then
       success ProcessedDataFound ;;
       ret (Some true)
     else
       warning (AttemptWaiting (i + 1) maxAttempts) ;;
       sleep interval ;;
       ret None)
    (fun err =>
       warning (ScanError (message err)) ;;
       ret None).

Definition waitForProcessing (maxAttempts interval : Z) : Script bool :=
  info WaitingForLambda ;;
  r <- for_loop 0 maxAttempts (poll_attempt maxAttempts interval) ;;
  match r with
  | Some b => ret b
  | None =>
      error Timeout ;;
      ret false
  end.

(** *** Verification of the stored records *)

Definition requiredFields : list string :=
  ["id"; "timestamp"; "nome"; "preco"; "source_file"].

(** Property names every plain object inherits from [Object.prototype]. *)
Definition Object_prototype_keys : list string :=
  ["constructor"; "hasOwnProperty"; "isPrototypeOf"; "propertyIsEnumerable";
   "toLocaleString"; "toString"; "valueOf"; "__proto__";
   "__defineGetter__"; "__defineSetter__"; "__lookupGetter__";
   "__lookupSetter__"].

Definition has_own (field : string) (obj : Item) : bool :=
  existsb (fun kv => String.eqb (fst kv) field) obj.

(** [field in obj] for a plain object: own or inherited. *)
Definition js_in (field : string) (obj : Item) : bool :=
  has_own field obj || existsb (String.eqb field) Object_prototype_keys.

Definition verifyData : Script bool :=
  info VerifyingData ;;
  try_catch
    (let params := {| TableName := TABLE_NAME; Limit := 100 |} in
     result <- call_throwing (dynamodb_scan env params) (Scan params) ;;
     let items := match Items result with Some l => l | None => [] end in
     success (TotalRecords (Z.of_nat (List.length items))) ;;
     match items with
     | firstItem :: _ =>                  (* items.length > 0 *)
         info ExampleRecord ;;
         emit (ConsoleLogItem firstItem) ;;
         let missingFields :=
           filter (fun field => negb (js_in field firstItem)) requiredFields in
         (if Z.of_nat (List.length missingFields) =? 0 then
            success AllFieldsPresent
          else
            warning (MissingFields missingFields)) ;;
         ret true
     | [] =>
         warning NoRecords ;;
         ret false
     end)
    (fun err =>
       error (VerifyError (message err)) ;;
       ret false).

(** *** The API test *)

Definition api_request : InvokeParams :=
  {| FunctionName := "CreateRecordFunction";
     InvocationType := "RequestResponse";
     Payload :=
       {| httpMethod := "POST";
          body := {| nome := "Produto Teste API";
                     categoria := "Teste Automatizado";
                     preco_hundredths := 19999;
                     estoque := 50 |};
          sourceIp := "127.0.0.1" |} |}.

Definition testApi : Script bool :=
  info TestingApi ;;
  try_catch
    (let params := api_request in
     payload <- call_throwing (lambda_invoke env params) (Invoke params) ;;
     response <- lift (JSON_parse env payload) ;;
     statusCode <- lift (get_prop response "statusCode") ;;
     if strict_eq_num statusCode 201 then
       success ApiWorking ;;
       response_body <- lift (get_prop response "body") ;;
       parsed <- lift (JSON_parse env response_body) ;;
       id <- lift (get_prop parsed "id") ;;
       id <- lift (interpolated id) ;;
       info (RecordCreated id) ;;
       ret true
     else
       statusCode <- lift (interpolated statusCode) ;;
       error (ApiStatus statusCode) ;;
       response_body <- lift (get_prop response "body") ;;
       emit (ConsoleLogValue response_body) ;;
       ret false)
    (fun err =>
       error (ApiError (message err)) ;;
       ret false).

Definition cleanup : Script unit :=
  info CleaningUp ;;
  warning CleanupHint.

(** *** Main *)

Definition main : Script unit :=
  console_log Separator ;;
  log Banner NoMark magenta ;;
  console_log Separator ;;
  let allPassed := true in
  (* Passo 1 *)
  up <- checkLocalStack ;;
  (if negb up then
     error CriticalLocalStack ;;
     process_exit 1
   else ret tt) ;;
  (* Passo 2: [!await checkBucket() || !await checkTable()] *)
  bucket <- checkBucket ;;
  unavailable <- (if negb bucket then ret true
                  else table <- checkTable ;; ret (negb table)) ;;
  (if unavailable then
     error ResourcesUnavailable ;;
     process_exit 1
   else ret tt) ;;
  (* Passo 3 *)
  uploaded <- uploadTestFile ;;
  let allPassed := if negb uploaded then false else allPassed in
  (* Passo 4 *)
  sleep 3000 ;;
  processed <- waitForProcessing 10 2000 ;;
  let allPassed := if negb processed then false else allPassed in
  (* Passo 5 *)
  verified <- verifyData ;;
  let allPassed := if negb verified then false else allPassed in
  (* Passo 6 *)
  sleep 2000 ;;
  api <- testApi ;;
  let allPassed := if negb api then false else allPassed in
  (* Passo 7 *)
  cleanup ;;
  (* Resultado final *)
  console_log Separator ;;
  (if allPassed then log AllPassed NoMark green
   else log SomeFailed NoMark yellow) ;;
  console_log Separator.

(** [main().catch(err => { ...; process.exit(1); })] *)
Definition script : Script unit :=
  try_catch main
    (fun err =>
       error (Fatal (message err)) ;;
       emit (ConsoleError err) ;;
       process_exit 1).

End Functions.

(** The exit code of the process: that of [process.exit] when it was called,
    [0] when the script ran to its end, and [1] (Node's code for an uncaught
    exception) otherwise. *)
Definition exit_code {A} (c : Completion A) : Z :=
  match c with
  | Normal _ => 0
  | Exit code => code
  | Throw _ => 1
  end.

(** A run of the whole script from an empty history. *)
Definition run (env : Env) : Completion unit * list Event := script env [].

(** *** Observations on a trace *)

Definition is_console (ev : Event) : bool :=
  match ev with
  | ConsoleLog _ _ _ | ConsoleLogText _ | ConsoleLogItem _
  | ConsoleLogValue _ | ConsoleError _ => true
  | _ => false
  end.

(** What the script did besides printing: SDK calls, file-system calls and
    sleeps, in order. *)
Definition actions (t : list Event) : list Event :=
  filter (fun ev => negb (is_console ev)) t.

(** The answers of the scans of a trace, in order. *)
Definition scan_replies (t : list Event) : list (JsError + ScanOutput) :=
  flat_map (fun ev => match ev with Scan _ r => [r] | _ => [] end) t.

(** The durations of the sleeps of a trace, in order. *)
Definition sleeps (t : list Event) : list Z :=
  flat_map (fun ev => match ev with Sleep ms => [ms] | _ => [] end) t.

(** The answer to the first [listBuckets] of a trace. *)
Definition emulator_probe (t : list Event) : option (JsError + unit) :=
  hd_error (flat_map (fun ev => match ev with ListBuckets r => [r] | _ => [] end) t).

(** The answer to the first [headBucket] of a trace. *)
Definition bucket_probe (t : list Event) : option (JsError + unit) :=
  hd_error (flat_map (fun ev => match ev with HeadBucket _ r => [r] | _ => [] end) t).

(** The answer to the first scan of a trace; in a run of the script this is
    the scan of [checkTable]. *)
Definition table_probe (t : list Event) : option (JsError + ScanOutput) :=
  hd_error (scan_replies t).

(** The answer to the first [existsSync] of a trace. *)
Definition fixture_probe (t : list Event) : option bool :=
  hd_error (flat_map (fun ev => match ev with ExistsSync _ r => [r] | _ => [] end) t).

(** The calls of the upload step: looking for the fixture, reading it and
    putting the object. *)
Definition is_upload (ev : Event) : bool :=
  match ev with
  | ExistsSync _ _ | ReadFileSync _ _ | PutObject _ _ => true
  | _ => false
  end.

(** An attempt that did not find data: its scan threw, or returned no
    item. *)
Definition unproductive (r : JsError + ScanOutput) : bool :=
  match r with
  | inl _ => true
  | inr out => negb (has_items out)
  end.

(** An attempt that observed an empty result: its scan returned, without an
    item. *)
Definition observed_empty (r : JsError + ScanOutput) : bool :=
  match r with
  | inl _ => false
  | inr out => negb (has_items out)
  end.

Definition poll_params : ScanParams := {| TableName := TABLE_NAME; Limit := 1 |}.
Definition verify_params : ScanParams := {| TableName := TABLE_NAME; Limit := 100 |}.

(** The shape of what [waitForProcessing] does from attempt [i] on, with
    its result: a successful attempt ends the polling; an empty one warns,
    sleeps and goes on; a failed one warns and goes on; when the budget is
    used up the timeout is reported. *)
Inductive poll_trace (maxAttempts interval : Z) : Z -> bool -> list Event -> Prop :=
| poll_timeout i :
    maxAttempts <= i ->
    poll_trace maxAttempts interval i false [ConsoleLog red CrossMark Timeout]
| poll_found i out :
    i < maxAttempts -> has_items out = true ->
    poll_trace maxAttempts interval i true
      [Scan poll_params (inr out); ConsoleLog green CheckMark ProcessedDataFound]
| poll_empty i out b t :
    i < maxAttempts -> has_items out = false ->
    poll_trace maxAttempts interval (i + 1) b t ->
    poll_trace maxAttempts interval i b
      (Scan poll_params (inr out)
       :: ConsoleLog yellow WarnMark (AttemptWaiting (i + 1) maxAttempts)
       :: Sleep interval :: t)
| poll_failed i e b t :
    i < maxAttempts ->
    poll_trace maxAttempts interval (i + 1) b t ->
    poll_trace maxAttempts interval i b
      (Scan poll_params (inl e)
       :: ConsoleLog yellow WarnMark (ScanError (message e)) :: t).

(** *** The shapes of a run of the script *)

Definition banner : list Event :=
  [ConsoleLogText Separator; ConsoleLog magenta NoMark Banner;
   ConsoleLogText Separator].

(** The banner and the three checks, all passed; [out] is what the scan of
    [checkTable] returned. *)
Definition checks_passed (out : ScanOutput) : list Event :=
  banner ++
  [ConsoleLog blue InfoMark CheckingLocalStack;
   ListBuckets (inr tt);
   ConsoleLog green CheckMark LocalStackUp;
   ConsoleLog blue InfoMark (CheckingBucket BUCKET_NAME);
   HeadBucket BUCKET_NAME (inr tt);
   ConsoleLog green CheckMark (BucketExists BUCKET_NAME);
   ConsoleLog blue InfoMark (CheckingTable TABLE_NAME);
   Scan poll_params (inr out);
   ConsoleLog green CheckMark (TableAccessible TABLE_NAME)].

Definition upload_params (fileContent : string) : PutObjectParams :=
  {| Bucket := BUCKET_NAME; Key := "input/produtos.csv";
     Body := fileContent; ContentType := "text/csv" |}.

(** The ways [uploadTestFile] returns, with its result. *)
Inductive upload_shape (env : Env) : bool -> list Event -> Prop :=
| upload_no_fixture :
    upload_shape env false
      [ConsoleLog blue InfoMark Uploading;
       ExistsSync (TEST_FILE env) false;
       ConsoleLog red CrossMark (FixtureNotFound (TEST_FILE env))]
| upload_done fileContent :
    upload_shape env true
      [ConsoleLog blue InfoMark Uploading;
       ExistsSync (TEST_FILE env) true;
       ReadFileSync (TEST_FILE env) (inr fileContent);
       PutObject (upload_params fileContent) (inr tt);
       ConsoleLog green CheckMark Uploaded]
| upload_rejected fileContent e :
    upload_shape env false
      [ConsoleLog blue InfoMark Uploading;
       ExistsSync (TEST_FILE env) true;
       ReadFileSync (TEST_FILE env) (inr fileContent);
       PutObject (upload_params fileContent) (inl e);
       ConsoleLog red CrossMark (UploadError (message e))].

(** The last lines of a run that reaches the end of [main]. *)
Definition summary (allPassed : bool) : list Event :=
  [ConsoleLog blue InfoMark CleaningUp;
   ConsoleLog yellow WarnMark CleanupHint;
   ConsoleLogText Separator;
   (if allPassed then ConsoleLog green NoMark AllPassed
    else ConsoleLog yellow NoMark SomeFailed);
   ConsoleLogText Separator].

(** The five ways a run of the script goes. *)
Inductive run_shape (env : Env) : Completion unit -> list Event -> Prop :=
| run_emulator_unreachable e :
    run_shape env (Exit 1)
      (banner ++
       [ConsoleLog blue InfoMark CheckingLocalStack;
        ListBuckets (inl e);
        ConsoleLog red CrossMark LocalStackDown;
        ConsoleLog red CrossMark CriticalLocalStack])
| run_bucket_absent e :
    run_shape env (Exit 1)
      (banner ++
       [ConsoleLog blue InfoMark CheckingLocalStack;
        ListBuckets (inr tt);
        ConsoleLog green CheckMark LocalStackUp;
        ConsoleLog blue InfoMark (CheckingBucket BUCKET_NAME);
        HeadBucket BUCKET_NAME (inl e);
        ConsoleLog red CrossMark (BucketMissing BUCKET_NAME);
        ConsoleLog red CrossMark ResourcesUnavailable])
| run_table_absent e :
    run_shape env (Exit 1)
      (banner ++
       [ConsoleLog blue InfoMark CheckingLocalStack;
        ListBuckets (inr tt);
        ConsoleLog green CheckMark LocalStackUp;
        ConsoleLog blue InfoMark (CheckingBucket BUCKET_NAME);
        HeadBucket BUCKET_NAME (inr tt);
        ConsoleLog green CheckMark (BucketExists BUCKET_NAME);
        ConsoleLog blue InfoMark (CheckingTable TABLE_NAME);
        Scan poll_params (inl e);
        ConsoleLog red CrossMark (TableInaccessible TABLE_NAME (message e));
        ConsoleLog red CrossMark ResourcesUnavailable])
| run_fixture_unreadable out e :
    run_shape env (Exit 1)
      (checks_passed out ++
       [ConsoleLog blue InfoMark Uploading;
        ExistsSync (TEST_FILE env) true;
        ReadFileSync (TEST_FILE env) (inl e);
        ConsoleLog red CrossMark (Fatal (message e));
        ConsoleError e])
| run_completed out uploaded t_upload processed t_poll verified t_verify
    api t_api h_poll h_verify h_api :
    upload_shape env uploaded t_upload ->
    waitForProcessing env 10 2000 h_poll = (Normal processed, t_poll) ->
    verifyData env h_verify = (Normal verified, t_verify) ->
    testApi env h_api = (Normal api, t_api) ->
    run_shape env (Normal tt)
      (checks_passed out ++ t_upload ++ Sleep 3000 :: t_poll ++ t_verify
       ++ Sleep 2000 :: t_api
       ++ summary (uploaded && processed && verified && api)).

(** What is printed after the loop: nothing when the loop returned, the
    timeout otherwise. *)
Definition timeout_report (r : option bool) : list Event :=
  match r with
  | Some _ => []
  | None => [ConsoleLog red CrossMark Timeout]
  end.

(** After an attempt the polling either makes its next scan or reports the
    timeout. *)
Definition resumes (rest : list Event) : Prop :=
  (exists r rest', rest = Scan poll_params r :: rest')
  \/ rest = [ConsoleLog red CrossMark Timeout].

(** *** The specification's wording of three steps *)

(** The polling idiom as the specification words it: at most [maxAttempts]
    scans, a sleep of [interval] between any two attempts, success on the
    first non-empty result, failure only after [maxAttempts] attempts have
    all observed an empty result. *)
Definition polling_as_specified (env : Env) (maxAttempts interval : Z)
    (h : History) : Prop :=
  let (c, t) := waitForProcessing env maxAttempts interval h in
  (List.length (scan_replies t) <= Z.to_nat maxAttempts)%nat
  /\ (forall pre p r mid p' r' post,
        t = pre ++ Scan p r :: mid ++ Scan p' r' :: post ->
        In (Sleep interval) mid)
  /\ (c = Normal true ->
      exists pre out,
        scan_replies t = pre ++ [inr out] /\ has_items out = true
        /\ forallb observed_empty pre = true)
  /\ (c = Normal false ->
      List.length (scan_replies t) = Z.to_nat maxAttempts
      /\ forallb observed_empty (scan_replies t) = true).

(** The record check as the specification words it: whatever record the
    scan returned, each required field it lacks is reported in a warning. *)
Definition verification_as_specified (env : Env) (h : History) : Prop :=
  let t := snd (verifyData env h) in
  forall out items item field,
    In (Scan verify_params (inr out)) t ->
    Items out = Some items ->
    In item items ->
    In field requiredFields ->
    has_own field item = false ->
    exists fields,
      In (ConsoleLog yellow WarnMark (MissingFields fields)) t /\ In field fields.

(** The invocation was answered by a response whose status code is 201. *)
Definition status_created (env : Env) (t : list Event) : Prop :=
  exists payload response,
    In (Invoke api_request (inr payload)) t
    /\ JSON_parse env payload = inr response
    /\ get_prop response "statusCode" = inr (JNum 201).

(** The API test as the specification words it: success exactly when the
    status code is 201. *)
Definition api_test_as_specified (env : Env) (h : History) : Prop :=
  fst (testApi env h) = Normal true <-> status_created env (snd (testApi env h)).

(** The response was a creation whose body could be read and whose [id]
    could be printed: status 201, a body that parses to a value with
    properties, and an [id] property (possibly [undefined]) whose conversion
    to a string does not throw. *)
Definition created_with_body (env : Env) (reply : JsError + JSValue) (id : JSValue)
  : Prop :=
  exists payload response response_body parsed,
    reply = inr payload
    /\ JSON_parse env payload = inr response
    /\ get_prop response "statusCode" = inr (JNum 201)
    /\ get_prop response "body" = inr response_body
    /\ JSON_parse env response_body = inr parsed
    /\ get_prop parsed "id" = inr id
    /\ ToString_throws id = false.

(** What [verifyData] prints about its example record: the fields of the
    list it lacks, or that none is lacking. *)
Definition verify_report (first : Item) : Event :=
  let missing := filter (fun field => negb (has_own field first)) requiredFields in
  match missing with
  | [] => ConsoleLog green CheckMark AllFieldsPresent
  | _ :: _ => ConsoleLog yellow WarnMark (MissingFields missing)
  end.

(** What [testApi] returns and prints after its invocation was answered by
    [reply]. *)
Definition api_post (env : Env) (b : bool) (reply : JsError + JSValue)
    (rest : list Event) : Prop :=
  (b = true <-> exists id, created_with_body env reply id)
  /\ (forall id, created_with_body env reply id ->
        rest = [ConsoleLog green CheckMark ApiWorking;
                ConsoleLog blue InfoMark (RecordCreated id)])
  /\ (forall payload response status,
        reply = inr payload ->
        JSON_parse env payload = inr response ->
        get_prop response "statusCode" = inr status ->
        status <> JNum 201 -> b = false).

(** *** Sample environments *)

(** An environment whose every operation gives the same answer whenever it
    is asked. *)
Definition constant_env (listing heading : JsError + unit)
    (scanning : JsError + ScanOutput) (present : bool)
    (reading : JsError + string) (putting : JsError + unit)
    (invoking : JsError + JSValue) (parse : JSValue -> JsError + JSValue) : Env :=
  {| s3_listBuckets := fun _ => listing;
     s3_headBucket := fun _ _ => heading;
     s3_putObject := fun _ _ => putting;
     dynamodb_scan := fun _ _ => scanning;
     lambda_invoke := fun _ _ => invoking;
     fs_existsSync := fun _ _ => present;
     fs_readFileSync := fun _ _ => reading;
     JSON_parse := parse;
     TEST_FILE := "/app/data/input/produtos.csv" |}.

(** The double-quote character. *)
Definition dq : string := String (Ascii.ascii_of_nat 34) EmptyString.

(** The backslash character. *)
Definition bs : string := String (Ascii.ascii_of_nat 92) EmptyString.

(** The text [{"id":"abc"}]. *)
Definition created_body_text : string :=
  ("{" ++ dq ++ "id" ++ dq ++ ":" ++ dq ++ "abc" ++ dq ++ "}")%string.

(** The text of an object with [statusCode] 201 and, as [body], the text
    above as a JSON string (its quotes escaped). *)
Definition created_text : string :=
  ("{" ++ dq ++ "statusCode" ++ dq ++ ":201," ++ dq ++ "body" ++ dq ++ ":"
   ++ dq ++ "{" ++ bs ++ dq ++ "id" ++ bs ++ dq ++ ":" ++ bs ++ dq ++ "abc"
   ++ bs ++ dq ++ "}" ++ dq ++ "}")%string.

(** The text [{"statusCode":201}]. *)
Definition created_without_body_text : string :=
  ("{" ++ dq ++ "statusCode" ++ dq ++ ":201}")%string.

(** [JSON.parse] on the arguments it receives in the sample runs: the three
    texts above, and [undefined], which is a syntax error. *)
Definition sample_parse (v : JSValue) : JsError + JSValue :=
  match v with
  | JStr s =>
      if String.eqb s created_text then
        inr (JObj [("statusCode", JNum 201); ("body", JStr created_body_text)])
      else if String.eqb s created_without_body_text then
        inr (JObj [("statusCode", JNum 201)])
      else if String.eqb s created_body_text then
        inr (JObj [("id", JStr "abc")])
      else inl (MkError "Unexpected token in JSON")
  | _ => inl (MkError "Unexpected token u in JSON at position 0")
  end.

Definition complete_item : Item :=
  [("id", JStr "7f3c"); ("timestamp", JStr "2024-05-01T12:00:00.000Z");
   ("nome", JStr "Teclado"); ("preco", JNum 150);
   ("source_file", JStr "input/produtos.csv")].

Definition refused : JsError := MkError "connect ECONNREFUSED 127.0.0.1:4566".
Definition not_found : JsError := MkError "NotFound".
Definition no_table : JsError := MkError "Cannot do operations on a non-existent table".
Definition is_a_directory : JsError :=
  MkError "EISDIR: illegal operation on a directory, read".

(** Everything is deployed and the pipeline has processed the fixture. *)
Definition env_ready : Env :=
  constant_env (inr tt) (inr tt) (inr {| Items := Some [complete_item] |}) true
    (inr "nome,categoria,preco,estoque") (inr tt) (inr (JStr created_text))
    sample_parse.

(** The emulator does not answer. *)
Definition env_emulator_down : Env :=
  constant_env (inl refused) (inl refused) (inl refused) true
    (inr "nome,categoria,preco,estoque") (inl refused) (inl refused) sample_parse.

(** The emulator runs, the stack is not deployed: no bucket. *)
Definition env_no_bucket : Env :=
  constant_env (inr tt) (inl not_found) (inl no_table) true
    (inr "nome,categoria,preco,estoque") (inl not_found) (inl not_found)
    sample_parse.

(** The bucket is there, the table is not: every scan is rejected. *)
Definition env_no_table : Env :=
  constant_env (inr tt) (inr tt) (inl no_table) true
    (inr "nome,categoria,preco,estoque") (inr tt) (inr (JStr created_text))
    sample_parse.

(** Everything is deployed, the fixture file is missing. *)
Definition env_no_fixture : Env :=
  constant_env (inr tt) (inr tt) (inr {| Items := Some [complete_item] |}) false
    (inl (MkError "ENOENT: no such file or directory")) (inr tt)
    (inr (JStr created_text)) sample_parse.

(** Everything is deployed, and the fixture path exists but cannot be read
    as a file: it is a directory. *)
Definition env_unreadable_fixture : Env :=
  constant_env (inr tt) (inr tt) (inr {| Items := Some [complete_item] |}) true
    (inl is_a_directory) (inr tt) (inr (JStr created_text)) sample_parse.

(** A record as the API path creates it: it has no [source_file]. *)
Definition api_item : Item :=
  [("id", JStr "c41a"); ("timestamp", JStr "2024-05-01T12:00:05.000Z");
   ("nome", JStr "Produto Teste API"); ("categoria", JStr "Teste Automatizado");
   ("preco", JNum 200); ("estoque", JNum 50)].

(** The table holds a complete record followed by one without
    [source_file]. *)
Definition env_two_records : Env :=
  constant_env (inr tt) (inr tt) (inr {| Items := Some [complete_item; api_item] |}) true
    (inr "nome,categoria,preco,estoque") (inr tt) (inr (JStr created_text))
    sample_parse.

(** The function answers [{"statusCode":201}]: a creation without a body. *)
Definition env_created_without_body : Env :=
  constant_env (inr tt) (inr tt) (inr {| Items := Some [complete_item] |}) true
    (inr "nome,categoria,preco,estoque") (inr tt)
    (inr (JStr created_without_body_text)) sample_parse.

(** The text [{"id":{"toString":1}}]. *)
Definition unprintable_body_text : string :=
  ("{" ++ dq ++ "id" ++ dq ++ ":{" ++ dq ++ "toString" ++ dq ++ ":1}}")%string.

(** The text of an object with [statusCode] 201 and, as [body], the text
    above. *)
Definition unprintable_text : string :=
  ("{" ++ dq ++ "statusCode" ++ dq ++ ":201," ++ dq ++ "body" ++ dq ++ ":"
   ++ dq ++ "{" ++ bs ++ dq ++ "id" ++ bs ++ dq ++ ":{" ++ bs ++ dq
   ++ "toString" ++ bs ++ dq ++ ":1}}" ++ dq ++ "}")%string.

(** [JSON.parse] on the two texts above. *)
Definition unprintable_parse (v : JSValue) : JsError + JSValue :=
  match v with
  | JStr s =>
      if String.eqb s unprintable_text then
        inr (JObj [("statusCode", JNum 201); ("body", JStr unprintable_body_text)])
      else if String.eqb s unprintable_body_text then
        inr (JObj [("id", JObj [("toString", JNum 1)])])
      else inl (MkError "Unexpected token in JSON")
  | _ => inl (MkError "Unexpected token u in JSON at position 0")
  end.

(** The function answers with a creation whose [id] is an object that
    cannot be converted to a string. *)
Definition env_unprintable_id : Env :=
  constant_env (inr tt) (inr tt) (inr {| Items := Some [complete_item] |}) true
    (inr "nome,categoria,preco,estoque") (inr tt)
    (inr (JStr unprintable_text)) unprintable_parse.

End TestPipeline.

(** ** The setup runner, [scripts/setup.js] *)

Module Setup.

Import Js Js.Notations.
Local Open Scope js_scope.

(** The [stdio] option of [execSync]. *)
Inductive Stdio : Type := inherit | pipe.

(** The lines the script prints. *)
Inductive Text : Type :=
| Title
| Rule                                    (* '='.repeat(60) *)
| Executing (command : string)
| CommandOk
| CommandError (msg : string)
| PackageJsonMissing
| Step (n : Z)                            (* Passo n: ... *)
| InstallFailed
| DockerDown
| StartFailed
| Waiting
| DeployFailed
| Done
| NextStepsHeader
| NextStep (n : Z).

Inductive Event : Type :=
| ConsoleLog (t : Text)
| ConsoleError (t : Text)
| ExistsSync (path : string) (r : bool)
(** [execSync] blocks the process for [duration] milliseconds, then returns
    or throws. *)
| ExecSync (command : string) (stdio : Stdio) (duration : N) (r : JsError + unit)
(** [setTimeout(() => {}, delay)]: registers a timer whose callback does
    nothing. *)
| SetTimeout (delay : Z).

Definition is_timer (ev : Event) : bool :=
  match ev with
  | SetTimeout _ => true
  | _ => false
  end.

(** What can be seen from outside the process: console output, file-system
    probes and child processes, not the timers of its event loop. *)
Definition outside_view (t : list Event) : list Event :=
  filter (fun ev => negb (is_timer ev)) t.

(** The outside world answers from what it has seen. *)
Record Env : Type :=
  { fs_existsSync : string -> list Event -> bool;
    child_process_execSync : string -> Stdio -> list Event -> N * (JsError + unit) }.

Definition Script : Type -> Type := M Event.

Section Functions.

Variable env : Env.

Definition console_log (t : Text) : Script unit := emit (ConsoleLog t).
Definition console_error (t : Text) : Script unit := emit (ConsoleError t).

(** [execSync(command, { stdio })] *)
Definition execSync (command : string) (stdio : Stdio) : Script unit :=
  answer <- call (fun h => child_process_execSync env command stdio (outside_view h))
                 (fun a => ExecSync command stdio (fst a) (snd a)) ;;
  lift (snd answer).

(** [execute(command, options = {})]: [stdio] is ['inherit'] unless the
    options override it. *)
Definition execute (command : string) (options : option Stdio) : Script bool :=
  console_log (Executing command) ;;
  try_catch
    (execSync command (match options with Some stdio => stdio | None => inherit end) ;;
     console_log CommandOk ;;
     ret true)
    (fun error =>
       console_error (CommandError (message error)) ;;
       ret false).

Definition checkFile (filePath : string) : Script bool :=
  call (fun h => fs_existsSync env filePath (outside_view h)) (ExistsSync filePath).

(** [setTimeout(() => {}, delay)] *)
Definition setTimeout_noop (delay : Z) : Script unit := emit (SetTimeout delay).

(** Lines 68-69 of the script: the no-op timer, then the blocking sleep. *)
Definition wait_step : Script unit :=
  setTimeout_noop 30000 ;;
  execSync "sleep 30" inherit.

(** The wait of the specification: a single explicit blocking wait of 30
    seconds, that is, lines 68-69 without the timer. *)
Definition single_blocking_wait : Script unit :=
  execSync "sleep 30" inherit.

(** The top-level statements of the script up to the start of the
    emulator (comments 1 to 4 of the source). *)
Definition steps_before_wait : Script unit :=
  console_log Title ;;
  console_log Rule ;;
  (* 1 *)
  found <- checkFile "package.json" ;;
  (if negb found then
     console_error PackageJsonMissing ;;
     process_exit 1
   else ret tt) ;;
  (* 2 *)
  console_log (Step 1) ;;
  ok <- execute "npm install" None ;;
  (if negb ok then
     console_error InstallFailed ;;
     process_exit 1
   else ret tt) ;;
  (* 3 *)
  console_log (Step 2) ;;
  ok <- execute "docker ps" (Some pipe) ;;
  (if negb ok then
     console_error DockerDown ;;
     process_exit 1
   else ret tt) ;;
  (* 4 *)
  console_log (Step 3) ;;
  ok <- execute "docker-compose up -d" None ;;
  (if negb ok then
     console_error StartFailed ;;
     process_exit 1
   else ret tt).

(** The statements after the wait (comments 6 and 7, and the closing
    lines). *)
Definition steps_after_wait : Script unit :=
  (* 6 *)
  console_log (Step 4) ;;
  ok <- execute "serverless deploy --stage local --verbose" None ;;
  (if negb ok then
     console_error DeployFailed ;;
     process_exit 1
   else ret tt) ;;
  (* 7 *)
  console_log (Step 5) ;;
  present <- checkFile "scripts/test-pipeline.js" ;;
  (if present then
     execute "node scripts/test-pipeline.js" None ;;
     ret tt
   else ret tt) ;;
  console_log Rule ;;
  console_log Done ;;
  console_log Rule ;;
  console_log NextStepsHeader ;;
  console_log (NextStep 1) ;;
  console_log (NextStep 2) ;;
  console_log (NextStep 3) ;;
  console_log (NextStep 4).

(** The whole script, around a given wait (comment 5). *)
Definition script_with (wait : Script unit) : Script unit :=
  steps_before_wait ;;
  console_log Waiting ;;
  wait ;;
  steps_after_wait.

(** The script as it is in the source. *)
Definition script : Script unit := script_with wait_step.

(** The script with the timer removed. *)
Definition script_single_wait : Script unit := script_with single_blocking_wait.

End Functions.

(** *** The process around the script *)

(** Time spent so far, in milliseconds: the process only blocks in
    [execSync]. *)
Fixpoint elapsed (t : list Event) : Z :=
  match t with
  | [] => 0
  | ExecSync _ _ duration _ :: rest => Z.of_N duration + elapsed rest
  | _ :: rest => elapsed rest
  end.

(** The instants at which the timers registered in [t] fire, [now] being the
    time at the start of [t]. *)
Fixpoint timer_deadlines (now : Z) (t : list Event) : list Z :=
  match t with
  | [] => []
  | SetTimeout delay :: rest => (now + delay) :: timer_deadlines now rest
  | ExecSync _ _ duration _ :: rest => timer_deadlines (now + Z.of_N duration) rest
  | _ :: rest => timer_deadlines now rest
  end.

(** What an observer of the process sees: what it did to the outside, the
    error Node prints when an exception is not caught, the exit code and the
    instant the process ends. *)
Record Behaviour : Type :=
  { seen : list Event;
    uncaught : option JsError;
    exit_code : Z;
    ended_at : Z }.

(** A script that runs to its end leaves the event loop to its pending
    timers, and the process ends with code [0] when the last of them has
    fired; [process.exit] and an uncaught exception (code [1]) end the process
    at once. *)
Definition behaviour (run : Completion unit * list Event) : Behaviour :=
  let (c, t) := run in
  match c with
  | Normal _ =>
      {| seen := outside_view t; uncaught := None; exit_code := 0;
         ended_at := fold_right Z.max (elapsed t) (timer_deadlines 0 t) |}
  | Exit code =>
      {| seen := outside_view t; uncaught := None; exit_code := code;
         ended_at := elapsed t |}
  | Throw e =>
      {| seen := outside_view t; uncaught := Some e; exit_code := 1;
         ended_at := elapsed t |}
  end.

Definition run (env : Env) : Behaviour := behaviour (script env []).

Definition run_single_wait (env : Env) : Behaviour :=
  behaviour (script_single_wait env []).

(** *** Failures of the steps *)

(** The event shows a failed step: [package.json] was not found, or a
    command failed. *)
Definition step_failed (ev : Event) : bool :=
  match ev with
  | ExistsSync path false => String.eqb path "package.json"
  | ExecSync _ _ _ (inl _) => true
  | _ => false
  end.

(** The event is the run of the basic test. *)
Definition is_basic_test (ev : Event) : bool :=
  match ev with
  | ExecSync command _ _ _ => String.eqb command "node scripts/test-pipeline.js"
  | _ => false
  end.

(** A failed step other than the basic test. *)
Definition fatal_failure (ev : Event) : bool :=
  step_failed ev && negb (is_basic_test ev).

(** The exit rule as the specification words it: whichever step fails, the
    exit code is 1. *)
Definition exits_on_any_step_failure (env : Env) : Prop :=
  existsb step_failed (seen (run env)) = true -> exit_code (run env) = 1.

(** The [sleep] command does what it says: when it succeeds, at least 30
    seconds have passed. *)
Definition sleep_is_honest (env : Env) : Prop :=
  forall h duration,
    child_process_execSync env "sleep 30" inherit h = (duration, inr tt) ->
    (30000 <= duration)%N.

(** Two histories look the same from outside. *)
Definition same_outside (h1 h2 : list Event) : Prop :=
  outside_view h1 = outside_view h2.

(** A piece of script whose course depends on the history only through
    what the outside has seen of it. *)
Definition blind {A} (m : Script A) : Prop :=
  forall h1 h2, same_outside h1 h2 -> m h1 = m h2.

(** *** Sample environments *)

(** Every command succeeds in the given time, except those of [failing];
    both probed files exist. *)
Definition commands_env (failing : list string) : Env :=
  {| fs_existsSync := fun _ _ => true;
     child_process_execSync := fun command _ _ =>
       if existsb (String.eqb command) failing
       then (200%N, inl (MkError ("Command failed: " ++ command)%string))
       else if String.eqb command "sleep 30" then (30004%N, inr tt)
       else (1500%N, inr tt) |}.

(** Everything works. *)
Definition env_all_good : Env := commands_env [].

(** Everything works, but the basic test fails. *)
Definition env_test_fails : Env := commands_env ["node scripts/test-pipeline.js"].

End Setup.

(** ** The notification helper (the SNS wrappers that follow the test
    runner in [scripts/test-pipeline.js]) *)

Module Sns.

Import Js Js.Notations.
Local Open Scope js_scope.

(** *** Configuration *)

(** [process.env]: a variable is set to a string, or is not set. *)
Definition ProcessEnv : Type := string -> option string.

(** [process.env.NAME || fallback]: the empty string is falsy, like a
    variable that is not set. *)
Definition or_default (penv : ProcessEnv) (name fallback : string) : string :=
  match penv name with
  | Some value => if String.eqb value "" then fallback else value
  | None => fallback
  end.

Record Config : Type :=
  { endpoint : string; region : string;
    accessKeyId : string; secretAccessKey : string }.

Definition snsConfig (penv : ProcessEnv) : Config :=
  {| endpoint := or_default penv "AWS_ENDPOINT_URL" "http://localhost:4566";
     region := or_default penv "AWS_REGION" "us-east-1";
     accessKeyId := or_default penv "AWS_ACCESS_KEY_ID" "test";
     secretAccessKey := or_default penv "AWS_SECRET_ACCESS_KEY" "test" |}.

(** *** Objects and their own properties *)

(** The own properties of an object are listed in the order in which
    [Object.keys] enumerates them: the array indices first, in ascending
    order, then the other keys in the order of their creation. *)

(** The decimal writing of an index. *)
Definition index_key (n : N) : string := NilZero.string_of_uint (N.to_uint n).

(** A key is an array index when it is the canonical decimal writing of an
    integer below [2^32 - 1]: ["7"] and ["10"] are, ["07"], ["-1"], ["1.5"]
    and ["4294967295"] are not. *)
Definition array_index (key : string) : option N :=
  match NilZero.uint_of_string key with
  | Some d =>
      let n := N.of_uint d in
      if String.eqb (index_key n) key && (n <? 4294967295)%N then Some n else None
  | None => None
  end.

(** [before key k]: a new key [key] is enumerated before the existing key
    [k], that is, [key] is an array index and [k] is a greater one or is
    none. *)
Definition before (key k : string) : bool :=
  match array_index key, array_index k with
  | Some n, Some m => (n <? m)%N
  | Some _, None => true
  | None, _ => false
  end.

Fixpoint lookup {V} (key : string) (props : list (string * V)) : option V :=
  match props with
  | [] => None
  | (k, v) :: rest => if String.eqb k key then Some v else lookup key rest
  end.

Definition has_key {V} (key : string) (props : list (string * V)) : bool :=
  match lookup key props with
  | Some _ => true
  | None => false
  end.

(** The value of an existing property is replaced where the property is. *)
Fixpoint replace {V} (key : string) (v : V) (props : list (string * V))
  : list (string * V) :=
  match props with
  | [] => []
  | (k, x) :: rest =>
      if String.eqb k key then (k, v) :: rest else (k, x) :: replace key v rest
  end.

(** A new property takes its place in the enumeration: an array index among
    the array indices, another key at the end. *)
Fixpoint insert_ordered {V} (key : string) (v : V) (props : list (string * V))
  : list (string * V) :=
  match props with
  | [] => [(key, v)]
  | (k, x) :: rest =>
      if before key k then (key, v) :: (k, x) :: rest
      else (k, x) :: insert_ordered key v rest
  end.

(** Definition of the own data property [key] of an object. *)
Definition set_property {V} (key : string) (v : V) (props : list (string * V))
  : list (string * V) :=
  if has_key key props then replace key v props else insert_ordered key v props.

(** The own properties of the object [JObj props]: the properties are
    created in the order of the list; a key that comes again is ignored, as
    [lookup_prop] reads the first. *)
Definition properties_of (props : list (string * JSValue))
  : list (string * JSValue) :=
  fold_left
    (fun acc kv =>
       if has_key (fst kv) acc then acc
       else insert_ordered (fst kv) (snd kv) acc)
    props [].

(** The elements of an array, or the characters of a string, under their
    indices from [i] on. *)
Fixpoint indexed (i : N) (elems : list JSValue) : list (string * JSValue) :=
  match elems with
  | [] => []
  | x :: rest => (index_key i, x) :: indexed (i + 1) rest
  end.

(** The characters of a string; a string is the sequence of its code
    units. *)
Fixpoint characters (s : string) : list JSValue :=
  match s with
  | EmptyString => []
  | String c rest => JStr (String c EmptyString) :: characters rest
  end.

(** The own enumerable properties of a value, as [Object.keys(v)] lists
    their keys and [v[key]] reads their values: [Object.keys] throws for
    [null] and [undefined]; a boolean and a number have none; a string has
    its characters and an array its elements, under their indices (the
    [length] is not enumerable). *)
Definition own_properties (v : JSValue) : JsError + list (string * JSValue) :=
  match v with
  | JUndefined | JNull =>
      inl (MkError "Cannot convert undefined or null to object")
  | JBool _ | JNum _ => inr []
  | JStr s => inr (indexed 0 (characters s))
  | JArr elems => inr (indexed 0 elems)
  | JObj props => inr (properties_of props)
  end.

(** [typeof v === 'object']: objects, arrays, and [null]. *)
Definition typeof_is_object (v : JSValue) : bool :=
  match v with
  | JNull | JArr _ | JObj _ => true
  | _ => false
  end.

(** *** Requests, answers and events *)

Record MessageAttribute : Type := { DataType : string; StringValue : string }.

(** The object [params.MessageAttributes]: its own properties, and its
    prototype when an assignment replaced [Object.prototype] ([None] stands
    for [Object.prototype]). *)
Record AttributeMap : Type :=
  { own : list (string * MessageAttribute);
    prototype : option MessageAttribute }.

(** The object literal [{}]. *)
Definition empty_object : AttributeMap := {| own := []; prototype := None |}.

(** [obj[key] = attribute], for an attribute made by [publishMessage].  The
    key [__proto__] is the accessor of [Object.prototype]: assigning an
    object to it replaces the prototype and creates no property.  Every
    other key becomes an own property (no other property of
    [Object.prototype], or of an attribute used as prototype, has a
    setter). *)
Definition assign (key : string) (attribute : MessageAttribute)
    (obj : AttributeMap) : AttributeMap :=
  if String.eqb key "__proto__" then
    {| own := own obj; prototype := Some attribute |}
  else
    {| own := set_property key attribute (own obj); prototype := prototype obj |}.

Record PublishParams : Type :=
  { TopicArn : string;
    Message : JSValue;
    Subject : JSValue;
    MessageAttributes : AttributeMap }.

Record CreateTopicParams : Type := { Name : string }.

(** The parameters of [sns.subscribe]: [TopicArn], [Protocol],
    [Endpoint]. *)
Record SubscribeParams : Type :=
  { SubscribeTopicArn : string; Protocol : string; Endpoint : string }.

(** The lines printed; a value in a line was converted to a string. *)
Inductive Text : Type :=
| Publishing (subject : JSValue)
| Published (messageId : JSValue)
| PublishFailed
| TopicCreated (topicArn : JSValue)
| CreateTopicFailed
| SubscriptionCreated (subscriptionArn : JSValue)
| SubscribeFailed
| ListTopicsFailed.

Inductive Event : Type :=
| ConsoleLog (t : Text)
| ConsoleError (t : Text) (e : JsError)   (* console.error(text, error) *)
| Publish (p : PublishParams) (r : JsError + JSValue)
| CreateTopic (p : CreateTopicParams) (r : JsError + JSValue)
| Subscribe (p : SubscribeParams) (r : JsError + JSValue)
| ListTopics (r : JsError + JSValue).

Definition History : Type := list Event.

(** The outside world: the service behind the SNS client, and the
    runtime's [JSON.stringify] and [String]; [String_ v] is the string
    [String(v)] returns when the conversion of [v] does not throw.  A call
    of the client resolves with its [data] object. *)
Record Env : Type :=
  { sns_publish : PublishParams -> History -> JsError + JSValue;
    sns_createTopic : CreateTopicParams -> History -> JsError + JSValue;
    sns_subscribe : SubscribeParams -> History -> JsError + JSValue;
    sns_listTopics : History -> JsError + JSValue;
    JSON_stringify : JSValue -> JsError + string;
    String_ : JSValue -> string }.

Definition Script : Type -> Type := M Event.

(** The default parameters of [publishMessage], [subject = 'Notification']
    and [attributes = {}]: the default stands for an argument that is
    omitted or [undefined]. *)
Definition subject_or_default (subject : JSValue) : JSValue :=
  match subject with JUndefined => JStr "Notification" | _ => subject end.

Definition attributes_or_default (attributes : JSValue) : JSValue :=
  match attributes with JUndefined => JObj [] | _ => attributes end.

Section Functions.

Variable env : Env.

Definition console_log (t : Text) : Script unit := emit (ConsoleLog t).
Definition console_error (t : Text) (e : JsError) : Script unit :=
  emit (ConsoleError t e).

(** [String(v)] *)
Definition String_of (v : JSValue) : JsError + string :=
  if ToString_throws v
  then inl (MkError "Cannot convert object to primitive value")
  else inr (String_ env v).

(** The [forEach] over [Object.keys(attributes)]: [props] are the keys with
    the values [attributes[key]], [obj] is [params.MessageAttributes].  An
    exception of [String] ends the loop. *)
Fixpoint add_attributes (props : list (string * JSValue)) (obj : AttributeMap)
  : JsError + AttributeMap :=
  match props with
  | [] => inr obj
  | (key, value) :: rest =>
      match String_of value with
      | inl e => inl e
      | inr text =>
          add_attributes rest
            (assign key {| DataType := "String"; StringValue := text |} obj)
      end
  end.

(** [publishMessage(topicArn, message, subject = 'Notification',
    attributes = {})]; an omitted argument is [undefined]. *)
Definition publishMessage (topicArn : string) (message subject attributes : JSValue)
  : Script JSValue :=
  let subject := subject_or_default subject in
  let attributes := attributes_or_default attributes in
  text <- (if typeof_is_object message then
             s <- lift (JSON_stringify env message) ;; ret (JStr s)
           else ret message) ;;
  props <- lift (own_properties attributes) ;;
  custom <- lift (add_attributes props empty_object) ;;
  let params := {| TopicArn := topicArn;
                   Message := text;
                   Subject := subject;
                   MessageAttributes := custom |} in
  try_catch
    (subject_text <- lift (interpolated subject) ;;
     console_log (Publishing subject_text) ;;
     result <- call_throwing (sns_publish env params) (Publish params) ;;
     messageId <- lift (get_prop result "MessageId") ;;
     messageId <- lift (interpolated messageId) ;;
     console_log (Published messageId) ;;
     ret result)
    (fun error =>
       console_error PublishFailed error ;;
       throw error).

Definition createTopic (topicName : string) : Script JSValue :=
  let params := {| Name := topicName |} in
  try_catch
    (result <- call_throwing (sns_createTopic env params) (CreateTopic params) ;;
     topicArn <- lift (get_prop result "TopicArn") ;;
     topicArn_text <- lift (interpolated topicArn) ;;
     console_log (TopicCreated topicArn_text) ;;
     topicArn <- lift (get_prop result "TopicArn") ;;
     ret topicArn)
    (fun error =>
       console_error CreateTopicFailed error ;;
       throw error).

Definition subscribe (topicArn protocol endpoint : string) : Script JSValue :=
  let params := {| SubscribeTopicArn := topicArn;
                   Protocol := protocol;
                   Endpoint := endpoint |} in
  try_catch
    (result <- call_throwing (sns_subscribe env params) (Subscribe params) ;;
     subscriptionArn <- lift (get_prop result "SubscriptionArn") ;;
     subscriptionArn <- lift (interpolated subscriptionArn) ;;
     console_log (SubscriptionCreated subscriptionArn) ;;
     ret result)
    (fun error =>
       console_error SubscribeFailed error ;;
       throw error).

Definition listTopics : Script JSValue :=
  try_catch
    (result <- call_throwing (sns_listTopics env) ListTopics ;;
     lift (get_prop result "Topics"))
    (fun error =>
       console_error ListTopicsFailed error ;;
       throw error).

End Functions.

(** *** Observations *)

(** The calls of the client in a trace. *)
Definition is_call (ev : Event) : bool :=
  match ev with
  | ConsoleLog _ | ConsoleError _ _ => false
  | _ => true
  end.

Definition calls (t : list Event) : list Event := filter is_call t.

(** The attribute [publishMessage] makes of a value. *)
Definition attribute_of (env : Env) (v : JSValue) : MessageAttribute :=
  {| DataType := "String"; StringValue := String_ env v |}.

(** A list of keys in the order of an enumeration, without repetition: no
    key is to be enumerated before an earlier one. *)
Definition enumerated (keys : list string) : Prop :=
  StronglySorted (fun a b => a <> b /\ before b a = false) keys.

(** An own key other than [__proto__]. *)
Definition makes_a_property (kv : string * JSValue) : bool :=
  negb (String.eqb (fst kv) "__proto__").

(** The exceptions [publishMessage] can throw before it enters its [try]:
    of [JSON.stringify(message)], of [Object.keys(attributes)], and of
    [String(attributes[key])]. *)
Definition thrown_before_try (env : Env) (message attributes : JSValue)
    (e : JsError) : Prop :=
  (typeof_is_object message = true /\ JSON_stringify env message = inl e)
  \/ own_properties (attributes_or_default attributes) = inl e
  \/ exists props,
       own_properties (attributes_or_default attributes) = inr props
       /\ add_attributes env props empty_object = inl e.

(** The property [name] of a result, read and then printed in a line. *)
Definition printed_prop (result : JSValue) (name : string) : JsError + JSValue :=
  match get_prop result name with
  | inl e => inl e
  | inr v => interpolated v
  end.

(** The ways a call of [publishMessage] goes. *)
Inductive publish_shape (env : Env) (topicArn : string)
    (message subject attributes : JSValue)
  : Completion JSValue -> list Event -> Prop :=
| publish_not_prepared e :
    thrown_before_try env message attributes e ->
    publish_shape env topicArn message subject attributes (Throw e) []
| publish_subject_not_printed e :
    interpolated (subject_or_default subject) = inl e ->
    publish_shape env topicArn message subject attributes (Throw e)
      [ConsoleError PublishFailed e]
| publish_answered text props custom reply c last :
    (typeof_is_object message = true
     /\ exists s, JSON_stringify env message = inr s /\ text = JStr s)
    \/ (typeof_is_object message = false /\ text = message) ->
    own_properties (attributes_or_default attributes) = inr props ->
    add_attributes env props empty_object = inr custom ->
    ToString_throws (subject_or_default subject) = false ->
    match reply with
    | inl e => c = Throw e /\ last = ConsoleError PublishFailed e
    | inr result =>
        match printed_prop result "MessageId" with
        | inl e => c = Throw e /\ last = ConsoleError PublishFailed e
        | inr messageId => c = Normal result /\ last = ConsoleLog (Published messageId)
        end
    end ->
    publish_shape env topicArn message subject attributes c
      [ConsoleLog (Publishing (subject_or_default subject));
       Publish {| TopicArn := topicArn;
                  Message := text;
                  Subject := subject_or_default subject;
                  MessageAttributes := custom |} reply;
       last].

(** A run that did not end the process and that, if it throws, has printed
    the error it throws with [console.error] as the last thing it did; a run
    that returns has printed no error. *)
Definition logged_and_rethrown (failed : Text) (c : Completion JSValue)
    (t : list Event) : Prop :=
  match c with
  | Normal _ => forall text e, ~ In (ConsoleError text e) t
  | Throw e => exists t0, t = t0 ++ [ConsoleError failed e]
  | Exit _ => False
  end.

(** How a wrapper completes on the answer of its call, when it obtains a
    value from the result by [read] and then returns [returned result v]. *)
Definition completion_on (read : JSValue -> JsError + JSValue)
    (returned : JSValue -> JSValue -> JSValue)
    (reply : JsError + JSValue) : Completion JSValue :=
  match reply with
  | inl e => Throw e
  | inr result =>
      match read result with
      | inl e => Throw e
      | inr v => Normal (returned result v)
      end
  end.

(** *** Sample environment *)

(** [String] and [JSON.stringify] on the values of the sample run. *)
Definition sample_String (v : JSValue) : string :=
  match v with
  | JStr s => s
  | JNum 3 => "3"
  | JBool true => "true"
  | JBool false => "false"
  | JNull => "null"
  | JUndefined => "undefined"
  | _ => "[object Object]"
  end.

Definition sample_env : Env :=
  {| sns_publish := fun _ _ => inr (JObj [("MessageId", JStr "5f1c")]);
     sns_createTopic := fun p _ =>
       inr (JObj [("TopicArn",
                   JStr ("arn:aws:sns:us-east-1:000000000000:" ++ Name p)%string)]);
     sns_subscribe := fun _ _ => inr (JObj [("SubscriptionArn", JStr "arn:sub")]);
     sns_listTopics := fun _ => inr (JObj [("Topics", JArr [])]);
     JSON_stringify := fun _ => inr "null";
     String_ := sample_String |}.

(** The attributes of the sample run: a key that is an array index comes
    after two that are not. *)
Definition sample_attributes : JSValue :=
  JObj [("origin", JStr "s3"); ("count", JNum 3); ("7", JBool true)].

(** An object that cannot be converted to a string: [{"toString":1}]. *)
Definition unprintable : JSValue := JObj [("toString", JNum 1)].

(** The service answers every call with identifiers that cannot be
    converted to a string. *)
Definition sample_env_unprintable : Env :=
  {| sns_publish := fun _ _ => inr (JObj [("MessageId", unprintable)]);
     sns_createTopic := fun _ _ => inr (JObj [("TopicArn", unprintable)]);
     sns_subscribe := fun _ _ => inr (JObj [("SubscriptionArn", unprintable)]);
     sns_listTopics := fun _ => inr (JObj [("Topics", JArr [])]);
     JSON_stringify := fun _ => inr "null";
     String_ := sample_String |}.

End Sns.


(** ** Further observations on the two scripts *)

Module PipelineView.

Import Js TestPipeline.

(** The objects put in a trace, with the answers, in order. *)
Definition puts (t : list Event) : list (PutObjectParams * (JsError + unit)) :=
  flat_map (fun ev => match ev with PutObject p r => [(p, r)] | _ => [] end) t.

(** The invocations of a trace, with the answers, in order. *)
Definition invocations (t : list Event) : list (InvokeParams * (JsError + JSValue)) :=
  flat_map (fun ev => match ev with Invoke p r => [(p, r)] | _ => [] end) t.

(** The scans of a trace, with the answers, in order. *)
Definition scans (t : list Event) : list (ScanParams * (JsError + ScanOutput)) :=
  flat_map (fun ev => match ev with Scan p r => [(p, r)] | _ => [] end) t.

(** The file reads of a trace, with the answers, in order. *)
Definition reads (t : list Event) : list (string * (JsError + string)) :=
  flat_map (fun ev => match ev with ReadFileSync p r => [(p, r)] | _ => [] end) t.

Definition total (l : list Z) : Z := fold_right Z.add 0 l.

(** The scan asks for one record of the table. *)
Definition is_poll_scan (ev : Event) : bool :=
  match ev with
  | Scan p _ => String.eqb (TableName p) TABLE_NAME && (Limit p =? 1)
  | _ => false
  end.

(** What a polling may do besides printing: scan for one record, and sleep
    the interval. *)
Definition is_poll_action (interval : Z) (ev : Event) : bool :=
  match ev with
  | Scan _ _ => is_poll_scan ev
  | Sleep ms => ms =? interval
  | _ => false
  end.

(** Everything is deployed; the first record of the table was created
    through the API. *)
Definition env_api_record : Env :=
  constant_env (inr tt) (inr tt) (inr {| Items := Some [api_item; complete_item] |})
    true (inr "nome,categoria,preco,estoque") (inr tt) (inr (JStr created_text))
    sample_parse.

End PipelineView.

Module SetupView.

Import Js Setup.

(** The commands of the script, in the order of the source. *)
Definition command_sequence : list string :=
  ["npm install"; "docker ps"; "docker-compose up -d"; "sleep 30";
   "serverless deploy --stage local --verbose"; "node scripts/test-pipeline.js"].

(** The commands run in a trace, in order. *)
Definition commands (t : list Event) : list string :=
  flat_map (fun ev => match ev with ExecSync c _ _ _ => [c] | _ => [] end) t.

(** Whether each command run in a trace succeeded, in order. *)
Definition outcomes (t : list Event) : list bool :=
  flat_map (fun ev =>
              match ev with
              | ExecSync _ _ _ (inr _) => [true]
              | ExecSync _ _ _ (inl _) => [false]
              | _ => []
              end) t.

(** The closing message of the script was printed. *)
Definition is_done (ev : Event) : bool :=
  match ev with
  | ConsoleLog Done => true
  | _ => false
  end.

(** [package.json] was looked for and not found. *)
Definition package_json_missing (ev : Event) : bool :=
  match ev with
  | ExistsSync path false => String.eqb path "package.json"
  | _ => false
  end.

(** The test script was looked for and found. *)
Definition test_found (ev : Event) : bool :=
  match ev with
  | ExistsSync path true => String.eqb path "scripts/test-pipeline.js"
  | _ => false
  end.

End SetupView.

(** * Proofs *)

(** ** The completion monad *)

Module JsFacts.

Import Js.

Section Rules.

Context {Event : Type}.

(** More fuel than the distance to the bound changes nothing: the loop is
    left through its test, never for lack of fuel. *)
Lemma for_loop_fuel_enough {R} (body : Z -> M Event (option R)) hi :
  forall fuel i h,
    (Z.to_nat (hi - i) <= fuel)%nat ->
    for_loop_fuel fuel i hi body h = for_loop_fuel (Z.to_nat (hi - i)) i hi body h.
Proof.
  induction fuel as [|fuel IH]; intros i h Hf.
  - replace (Z.to_nat (hi - i)) with 0%nat by lia. reflexivity.
  - destruct (Z.ltb_spec i hi) as [Hlt|Hge].
    + replace (Z.to_nat (hi - i)) with (S (Z.to_nat (hi - (i + 1)))) by lia.
      cbn [for_loop_fuel].
      destruct (Z.ltb_spec i hi); [|lia].
      unfold bind. destruct (body i h) as [[[v|]| |] t1]; try reflexivity.
      rewrite IH by lia. reflexivity.
    + replace (Z.to_nat (hi - i)) with 0%nat by lia.
      cbn [for_loop_fuel]. destruct (Z.ltb_spec i hi); [lia|reflexivity].
Qed.

Lemma wp_elim {A} (m : M Event A) h Q : wp m h Q -> Q (fst (m h)) (snd (m h)).
Proof. exact (fun H => H). Qed.

Lemma wp_run {A} (m : M Event A) h Q c t : m h = (c, t) -> Q c t -> wp m h Q.
Proof. unfold wp. intros ->. exact (fun H => H). Qed.

Lemma wp_bind {A B} (m : M Event A) (f : A -> M Event B) h Q :
  wp m h (fun c t1 =>
            match c with
            | Normal a => wp (f a) (h ++ t1) (fun c' t2 => Q c' (t1 ++ t2))
            | Throw e => Q (Throw e) t1
            | Exit code => Q (Exit code) t1
            end) ->
  wp (bind m f) h Q.
Proof.
  unfold wp, bind. destruct (m h) as [[a|e|code] t1]; cbn [fst snd]; auto.
  destruct (f a (h ++ t1)); auto.
Qed.

Lemma wp_try_catch {A} (m : M Event A) (handler : JsError -> M Event A) h Q :
  wp m h (fun c t1 =>
            match c with
            | Throw e => wp (handler e) (h ++ t1) (fun c' t2 => Q c' (t1 ++ t2))
            | Normal a => Q (Normal a) t1
            | Exit code => Q (Exit code) t1
            end) ->
  wp (try_catch m handler) h Q.
Proof.
  unfold wp, try_catch. destruct (m h) as [[a|e|code] t1]; cbn [fst snd]; auto.
  destruct (handler e (h ++ t1)); auto.
Qed.

Lemma wp_ret {A} (a : A) (h : list Event) Q : Q (Normal a) [] -> wp (ret a) h Q.
Proof. exact (fun H => H). Qed.

Lemma wp_emit (ev : Event) h Q : Q (Normal tt) [ev] -> wp (emit ev) h Q.
Proof. exact (fun H => H). Qed.

Lemma wp_process_exit {A} code (h : list Event) (Q : Completion A -> _ -> Prop) :
  Q (Exit code) [] -> wp (process_exit code) h Q.
Proof. exact (fun H => H). Qed.

Lemma wp_call {R} (oracle : list Event -> R) record h Q :
  Q (Normal (oracle h)) [record (oracle h)] -> wp (call oracle record) h Q.
Proof. exact (fun H => H). Qed.

Lemma wp_call_throwing {R} (oracle : list Event -> JsError + R) record h Q :
  match oracle h with
  | inl e => Q (Throw e) [record (inl e)]
  | inr v => Q (Normal v) [record (inr v)]
  end ->
  wp (call_throwing oracle record) h Q.
Proof.
  unfold wp, call_throwing, bind, call. destruct (oracle h); exact (fun H => H).
Qed.

Lemma wp_lift {R} (r : JsError + R) (h : list Event) Q :
  match r with
  | inl e => Q (Throw e) []
  | inr v => Q (Normal v) []
  end ->
  wp (lift r) h Q.
Proof. unfold wp, lift. destruct r; exact (fun H => H). Qed.

End Rules.

Lemma strict_eq_num_true v n : strict_eq_num v n = true <-> v = JNum n.
Proof.
  destruct v; cbn; try (split; [discriminate|intros [=]]).
  rewrite Z.eqb_eq. split; [intros ->; reflexivity|intros [= ->]; reflexivity].
Qed.

Lemma interpolated_inl v e :
  interpolated v = inl e ->
  ToString_throws v = true /\ e = MkError "Cannot convert object to primitive value".
Proof.
  unfold interpolated. destruct (ToString_throws v); [|discriminate].
  intros [= <-]. split; reflexivity.
Qed.

Lemma interpolated_inr v x :
  interpolated v = inr x -> x = v /\ ToString_throws v = false.
Proof.
  unfold interpolated. destruct (ToString_throws v); [discriminate|].
  intros [= <-]. split; reflexivity.
Qed.

End JsFacts.

(** ** The test runner *)

Module PipelineFacts.

Import Js Js.Notations TestPipeline JsFacts.

(** One step of symbolic execution of a script. *)
Ltac wp_step :=
  lazymatch goal with
  | |- wp (bind _ _) _ _ => apply wp_bind
  | |- wp (try_catch _ _) _ _ => apply wp_try_catch
  | |- wp (ret _) _ _ => apply wp_ret
  | |- wp (emit _) _ _ => apply wp_emit
  | |- wp (process_exit _) _ _ => apply wp_process_exit
  | |- wp (call _ _) _ _ => apply wp_call
  | |- wp (call_throwing _ _) _ _ => apply wp_call_throwing
  | |- wp (lift _) _ _ => apply wp_lift
  | |- wp (log _ _ _) _ _ => unfold log
  | |- wp (console_log _) _ _ => unfold console_log
  | |- wp (info _) _ _ => unfold info
  | |- wp (success _) _ _ => unfold success
  | |- wp (error _) _ _ => unfold error
  | |- wp (warning _) _ _ => unfold warning
  | |- wp (sleep _) _ _ => unfold sleep
  | |- wp (if ?b then _ else _) _ _ => destruct b eqn:?
  | |- wp (match ?x with _ => _ end) _ _ => destruct x eqn:?
  | |- match ?x with _ => _ end => destruct x eqn:?
  end; cbv beta iota.

Ltac wp_steps := repeat wp_step.

(** *** The polling loop *)

Section Polling.

Variable env : Env.
Variables maxAttempts interval : Z.

Lemma poll_attempt_run i h :
  poll_attempt env maxAttempts interval i h =
  match dynamodb_scan env poll_params h with
  | inr out =>
      if has_items out then
        (Normal (Some true),
         [Scan poll_params (inr out); ConsoleLog green CheckMark ProcessedDataFound])
      else
        (Normal None,
         [Scan poll_params (inr out);
          ConsoleLog yellow WarnMark (AttemptWaiting (i + 1) maxAttempts);
          Sleep interval])
  | inl e =>
      (Normal None,
       [Scan poll_params (inl e); ConsoleLog yellow WarnMark (ScanError (message e))])
  end.
Proof.
  unfold poll_attempt, try_catch, bind, call_throwing, call, bind, poll_params.
  destruct (dynamodb_scan env _ h) as [e|out]; cbn.
  - reflexivity.
  - destruct (has_items out); reflexivity.
Qed.

(** Whatever the table answers, the loop returns, and what it did has the
    shape of a polling. *)
Lemma poll_loop_run : forall fuel i h,
  (Z.to_nat (maxAttempts - i) <= fuel)%nat ->
  exists r t,
    for_loop_fuel fuel i maxAttempts (poll_attempt env maxAttempts interval) h
      = (Normal r, t) /\
    poll_trace maxAttempts interval i
      (match r with Some b => b | None => false end) (t ++ timeout_report r).
Proof.
  induction fuel as [|fuel IH]; intros i h Hf.
  - exists None, []. split; [reflexivity|]. apply poll_timeout. lia.
  - cbn [for_loop_fuel]. destruct (Z.ltb_spec i maxAttempts) as [Hlt|Hge].
    + unfold bind at 1. rewrite poll_attempt_run.
      destruct (dynamodb_scan env poll_params h) as [e|out].
      * destruct (IH (i + 1) (h ++ [Scan poll_params (inl e);
                    ConsoleLog yellow WarnMark (ScanError (message e))]))
          as (r & t & E & P); [lia|].
        rewrite E. eexists r, _. split; [reflexivity|].
        cbn [app]. apply poll_failed; assumption.
      * destruct (has_items out) eqn:Hi.
        -- exists (Some true), [Scan poll_params (inr out);
                                ConsoleLog green CheckMark ProcessedDataFound].
           split; [reflexivity|]. apply poll_found; assumption.
        -- match goal with |- context [for_loop_fuel fuel (i + 1) _ _ ?h'] =>
             destruct (IH (i + 1) h') as (r & t & E & P); [lia|] end.
           rewrite E. eexists r, _. split; [reflexivity|].
           cbn [app]. apply poll_empty; assumption.
    + exists None, []. split; [reflexivity|]. apply poll_timeout. lia.
Qed.

Lemma waitForProcessing_run h :
  exists b t,
    waitForProcessing env maxAttempts interval h
      = (Normal b, ConsoleLog blue InfoMark WaitingForLambda :: t) /\
    poll_trace maxAttempts interval 0 b t.
Proof.
  unfold waitForProcessing, for_loop.
  destruct (poll_loop_run (Z.to_nat (maxAttempts - 0)) 0
              (h ++ [ConsoleLog blue InfoMark WaitingForLambda]))
    as (r & t & E & P); [lia|].
  unfold bind at 1. cbn [info log emit].
  unfold bind at 1. rewrite E.
  destruct r as [b|]; cbn.
  - exists b, t. rewrite app_nil_r in P. rewrite app_nil_r.
    split; [reflexivity|exact P].
  - exists false, (t ++ [ConsoleLog red CrossMark Timeout]).
    split; [reflexivity|exact P].
Qed.

Lemma waitForProcessing_returns h :
  exists b t, waitForProcessing env maxAttempts interval h = (Normal b, t).
Proof.
  destruct (waitForProcessing_run h) as (b & t & E & _). eauto.
Qed.

(** *** What a polling shape implies *)

Lemma poll_trace_resumes i b t : poll_trace maxAttempts interval i b t -> resumes t.
Proof.
  intros P. destruct P; [right; reflexivity|left; eauto ..].
Qed.

Lemma poll_trace_scan_count i b t :
  poll_trace maxAttempts interval i b t ->
  (List.length (scan_replies t) <= Z.to_nat (maxAttempts - i))%nat.
Proof.
  unfold scan_replies. induction 1; cbn [flat_map app List.length] in *; lia.
Qed.

Lemma poll_trace_timeout i t :
  poll_trace maxAttempts interval i false t ->
  List.length (scan_replies t) = Z.to_nat (maxAttempts - i)
  /\ forallb unproductive (scan_replies t) = true
  /\ exists t0, t = t0 ++ [ConsoleLog red CrossMark Timeout].
Proof.
  unfold scan_replies.
  intros P. remember false as b eqn:Hb. induction P; subst.
  - cbn. split; [lia|]. split; [reflexivity|]. exists []. reflexivity.
  - discriminate.
  - destruct (IHP eq_refl) as (L & U & t0 & ->).
    cbn [flat_map app List.length forallb unproductive] in *.
    rewrite H0. cbn. split; [lia|]. split; [exact U|].
    eexists (_ :: _ :: _ :: t0). reflexivity.
  - destruct (IHP eq_refl) as (L & U & t0 & ->).
    cbn [flat_map app List.length forallb unproductive] in *.
    split; [lia|]. split; [exact U|].
    eexists (_ :: _ :: t0). reflexivity.
Qed.

Lemma poll_trace_found i t :
  poll_trace maxAttempts interval i true t ->
  exists pre out,
    scan_replies t = pre ++ [inr out]
    /\ has_items out = true
    /\ forallb unproductive pre = true.
Proof.
  unfold scan_replies.
  intros P. remember true as b eqn:Hb. induction P; subst.
  - discriminate.
  - exists [], out. cbn. auto.
  - destruct (IHP eq_refl) as (pre & o & E & Ho & U).
    exists (inr out :: pre), o.
    cbn [flat_map app forallb unproductive] in *.
    rewrite E, H0. cbn. auto.
  - destruct (IHP eq_refl) as (pre & o & E & Ho & U).
    exists (inl e :: pre), o.
    cbn [flat_map app forallb unproductive] in *.
    rewrite E. cbn. auto.
Qed.

Lemma poll_trace_sleeps i b t :
  poll_trace maxAttempts interval i b t ->
  sleeps t = repeat interval (List.length (filter observed_empty (scan_replies t))).
Proof.
  unfold sleeps, scan_replies.
  induction 1; cbn [flat_map app filter observed_empty] in *.
  - reflexivity.
  - rewrite H0. reflexivity.
  - rewrite H0. cbn. f_equal. exact IHpoll_trace.
  - exact IHpoll_trace.
Qed.

Lemma poll_trace_failed_attempt i b t :
  poll_trace maxAttempts interval i b t ->
  forall pre e post,
    t = pre ++ Scan poll_params (inl e) :: post ->
    exists rest,
      post = ConsoleLog yellow WarnMark (ScanError (message e)) :: rest
      /\ resumes rest.
Proof.
  induction 1; intros pre e0 post E.
  - destruct pre as [|x [|y pre]]; discriminate.
  - destruct pre as [|x [|y [|z pre]]]; discriminate.
  - destruct pre as [|x [|y [|z pre]]]; try discriminate.
    inversion E; subst. eauto.
  - destruct pre as [|x [|y pre]]; try discriminate.
    + inversion E; subst. eexists. split; [reflexivity|].
      eapply poll_trace_resumes; eassumption.
    + inversion E; subst. eauto.
Qed.

Lemma poll_trace_empty_attempt i b t :
  poll_trace maxAttempts interval i b t ->
  forall pre out post,
    t = pre ++ Scan poll_params (inr out) :: post ->
    has_items out = false ->
    exists rest,
      post = ConsoleLog yellow WarnMark
               (AttemptWaiting (i + Z.of_nat (List.length (scan_replies pre)) + 1)
                  maxAttempts)
             :: Sleep interval :: rest
      /\ resumes rest.
Proof.
  induction 1; intros pre out0 post E Hempty.
  - destruct pre as [|x [|y pre]]; discriminate.
  - destruct pre as [|x [|y [|z pre]]]; try discriminate.
    inversion E; subst. congruence.
  - destruct pre as [|x [|y [|z pre]]]; try discriminate.
    + inversion E; subst. eexists. split.
      * cbn. do 2 f_equal. f_equal. lia.
      * eapply poll_trace_resumes; eassumption.
    + inversion E; subst.
      destruct (IHpoll_trace _ _ _ eq_refl Hempty) as (rest & -> & R).
      eexists. split; [|exact R].
      unfold scan_replies. cbn [flat_map app List.length]. do 2 f_equal. f_equal. lia.
  - destruct pre as [|x [|y pre]]; try discriminate.
    inversion E; subst.
    destruct (IHpoll_trace _ _ _ eq_refl Hempty) as (rest & -> & R).
    eexists. split; [|exact R].
    unfold scan_replies. cbn [flat_map app List.length]. do 2 f_equal. f_equal. lia.
Qed.

(** C1, as amended.  Whatever the table answers, [waitForProcessing] with
    budget [maxAttempts] and interval [interval] returns; it makes at most
    [maxAttempts] scans; it sleeps [interval] milliseconds once for each
    attempt that observed an empty result, and for no other; it returns
    [true] on the first scan whose result is not empty; and it returns
    [false], after reporting the timeout, only when [maxAttempts] attempts
    have each observed an empty result or an error. *)
Theorem waitForProcessing_bounded_retry (h : History) :
  exists b t,
    waitForProcessing env maxAttempts interval h = (Normal b, t)
    /\ (List.length (scan_replies t) <= Z.to_nat maxAttempts)%nat
    /\ sleeps t
       = repeat interval (List.length (filter observed_empty (scan_replies t)))
    /\ (b = true ->
        exists pre out,
          scan_replies t = pre ++ [inr out] /\ has_items out = true
          /\ forallb unproductive pre = true)
    /\ (b = false ->
        List.length (scan_replies t) = Z.to_nat maxAttempts
        /\ forallb unproductive (scan_replies t) = true
        /\ exists t0, t = t0 ++ [ConsoleLog red CrossMark Timeout]).
Proof.
  destruct (waitForProcessing_run h) as (b & t & E & P).
  exists b, (ConsoleLog blue InfoMark WaitingForLambda :: t).
  split; [exact E|].
  change (scan_replies (ConsoleLog blue InfoMark WaitingForLambda :: t))
    with (scan_replies t).
  change (sleeps (ConsoleLog blue InfoMark WaitingForLambda :: t)) with (sleeps t).
  split.
  { pose proof (poll_trace_scan_count _ _ _ P) as L.
    rewrite Z.sub_0_r in L. exact L. }
  split; [eapply poll_trace_sleeps; eassumption|].
  split.
  - intros ->. eapply poll_trace_found; eassumption.
  - intros ->. destruct (poll_trace_timeout _ _ P) as (L & U & t0 & ->).
    rewrite Z.sub_0_r in L. split; [exact L|]. split; [exact U|].
    exists (ConsoleLog blue InfoMark WaitingForLambda :: t0). reflexivity.
Qed.

(** C9.  In a run of [waitForProcessing], an attempt whose scan throws is
    followed by its warning and then directly by the next scan or by the
    timeout report, with no sleep; an attempt whose scan returns no item is
    followed by its warning, numbered after all earlier attempts, and by the
    sleep of [interval], be it before the next scan or before the timeout
    report; attempts of both kinds count against the budget. *)
Theorem polling_failed_and_empty_attempts (h : History) :
  exists b t,
    waitForProcessing env maxAttempts interval h = (Normal b, t)
    /\ (forall pre e post,
          t = pre ++ Scan poll_params (inl e) :: post ->
          exists rest,
            post = ConsoleLog yellow WarnMark (ScanError (message e)) :: rest
            /\ resumes rest)
    /\ (forall pre out post,
          t = pre ++ Scan poll_params (inr out) :: post ->
          has_items out = false ->
          exists rest,
            post = ConsoleLog yellow WarnMark
                     (AttemptWaiting (Z.of_nat (List.length (scan_replies pre)) + 1)
                        maxAttempts)
                   :: Sleep interval :: rest
            /\ resumes rest)
    /\ (List.length (scan_replies t) <= Z.to_nat maxAttempts)%nat
    /\ (b = false -> List.length (scan_replies t) = Z.to_nat maxAttempts).
Proof.
  destruct (waitForProcessing_run h) as (b & t & E & P).
  exists b, (ConsoleLog blue InfoMark WaitingForLambda :: t).
  split; [exact E|].
  split; [|split; [|split]].
  - intros [|x pre] e post Ht; [discriminate|]. inversion Ht; subst.
    eapply poll_trace_failed_attempt; [exact P|reflexivity].
  - intros [|x pre] out post Ht Hempty; [discriminate|]. inversion Ht; subst.
    destruct (poll_trace_empty_attempt _ _ _ P _ _ _ eq_refl Hempty)
      as (rest & -> & R).
    exists rest. split; [|exact R]. reflexivity.
  - pose proof (poll_trace_scan_count _ _ _ P) as L.
    rewrite Z.sub_0_r in L. exact L.
  - intros ->. destruct (poll_trace_timeout _ _ P) as (L & _).
    rewrite Z.sub_0_r in L. exact L.
Qed.

End Polling.

(** C1, as the specification words it, fails: with a budget of two attempts
    and a table that rejects every scan, the polling reports the timeout
    though no attempt observed an empty result (and without any sleep
    between the two attempts). *)
Lemma waitForProcessing_not_as_specified :
  ~ polling_as_specified env_no_table 2 2000 [].
Proof.
  unfold polling_as_specified.
  assert (E : waitForProcessing env_no_table 2 2000 []
              = (Normal false,
                 [ConsoleLog blue InfoMark WaitingForLambda;
                  Scan poll_params (inl no_table);
                  ConsoleLog yellow WarnMark (ScanError (message no_table));
                  Scan poll_params (inl no_table);
                  ConsoleLog yellow WarnMark (ScanError (message no_table));
                  ConsoleLog red CrossMark Timeout])) by reflexivity.
  rewrite E. intros (_ & _ & _ & F).
  destruct (F eq_refl) as [_ F']. discriminate F'.
Qed.

(** *** The checks and the upload *)

Section Steps.

Variable env : Env.

Lemma checkLocalStack_run h :
  checkLocalStack env h =
  match s3_listBuckets env (h ++ [ConsoleLog blue InfoMark CheckingLocalStack]) with
  | inr _ =>
      (Normal true,
       [ConsoleLog blue InfoMark CheckingLocalStack; ListBuckets (inr tt);
        ConsoleLog green CheckMark LocalStackUp])
  | inl e =>
      (Normal false,
       [ConsoleLog blue InfoMark CheckingLocalStack; ListBuckets (inl e);
        ConsoleLog red CrossMark LocalStackDown])
  end.
Proof.
  unfold checkLocalStack, try_catch, bind, call_throwing, call, bind.
  cbn. destruct (s3_listBuckets env _) as [e|[]]; reflexivity.
Qed.

Lemma checkBucket_run h :
  checkBucket env h =
  match s3_headBucket env BUCKET_NAME
          (h ++ [ConsoleLog blue InfoMark (CheckingBucket BUCKET_NAME)]) with
  | inr _ =>
      (Normal true,
       [ConsoleLog blue InfoMark (CheckingBucket BUCKET_NAME);
        HeadBucket BUCKET_NAME (inr tt);
        ConsoleLog green CheckMark (BucketExists BUCKET_NAME)])
  | inl e =>
      (Normal false,
       [ConsoleLog blue InfoMark (CheckingBucket BUCKET_NAME);
        HeadBucket BUCKET_NAME (inl e);
        ConsoleLog red CrossMark (BucketMissing BUCKET_NAME)])
  end.
Proof.
  unfold checkBucket, try_catch, bind, call_throwing, call, bind.
  cbn. destruct (s3_headBucket env _ _) as [e|[]]; reflexivity.
Qed.

Lemma checkTable_run h :
  checkTable env h =
  match dynamodb_scan env poll_params
          (h ++ [ConsoleLog blue InfoMark (CheckingTable TABLE_NAME)]) with
  | inr out =>
      (Normal true,
       [ConsoleLog blue InfoMark (CheckingTable TABLE_NAME);
        Scan poll_params (inr out);
        ConsoleLog green CheckMark (TableAccessible TABLE_NAME)])
  | inl e =>
      (Normal false,
       [ConsoleLog blue InfoMark (CheckingTable TABLE_NAME);
        Scan poll_params (inl e);
        ConsoleLog red CrossMark (TableInaccessible TABLE_NAME (message e))])
  end.
Proof.
  unfold checkTable, try_catch, bind, call_throwing, call, bind, poll_params.
  cbn. destruct (dynamodb_scan env _ _) as [e|out]; reflexivity.
Qed.

Lemma wp_checkLocalStack h Q :
  match s3_listBuckets env (h ++ [ConsoleLog blue InfoMark CheckingLocalStack]) with
  | inr _ =>
      Q (Normal true)
        [ConsoleLog blue InfoMark CheckingLocalStack; ListBuckets (inr tt);
         ConsoleLog green CheckMark LocalStackUp]
  | inl e =>
      Q (Normal false)
        [ConsoleLog blue InfoMark CheckingLocalStack; ListBuckets (inl e);
         ConsoleLog red CrossMark LocalStackDown]
  end ->
  wp (checkLocalStack env) h Q.
Proof.
  unfold wp. rewrite checkLocalStack_run.
  destruct (s3_listBuckets env _); exact (fun H => H).
Qed.

Lemma wp_checkBucket h Q :
  match s3_headBucket env BUCKET_NAME
          (h ++ [ConsoleLog blue InfoMark (CheckingBucket BUCKET_NAME)]) with
  | inr _ =>
      Q (Normal true)
        [ConsoleLog blue InfoMark (CheckingBucket BUCKET_NAME);
         HeadBucket BUCKET_NAME (inr tt);
         ConsoleLog green CheckMark (BucketExists BUCKET_NAME)]
  | inl e =>
      Q (Normal false)
        [ConsoleLog blue InfoMark (CheckingBucket BUCKET_NAME);
         HeadBucket BUCKET_NAME (inl e);
         ConsoleLog red CrossMark (BucketMissing BUCKET_NAME)]
  end ->
  wp (checkBucket env) h Q.
Proof.
  unfold wp. rewrite checkBucket_run.
  destruct (s3_headBucket env _ _); exact (fun H => H).
Qed.

Lemma wp_checkTable h Q :
  match dynamodb_scan env poll_params
          (h ++ [ConsoleLog blue InfoMark (CheckingTable TABLE_NAME)]) with
  | inr out =>
      Q (Normal true)
        [ConsoleLog blue InfoMark (CheckingTable TABLE_NAME);
         Scan poll_params (inr out);
         ConsoleLog green CheckMark (TableAccessible TABLE_NAME)]
  | inl e =>
      Q (Normal false)
        [ConsoleLog blue InfoMark (CheckingTable TABLE_NAME);
         Scan poll_params (inl e);
         ConsoleLog red CrossMark (TableInaccessible TABLE_NAME (message e))]
  end ->
  wp (checkTable env) h Q.
Proof.
  unfold wp. rewrite checkTable_run.
  destruct (dynamodb_scan env _ _); exact (fun H => H).
Qed.

(** [uploadTestFile] either returns in one of its three shapes, or throws
    what [readFileSync] threw; it never ends the process. *)
Lemma uploadTestFile_run h :
  (exists uploaded t,
     uploadTestFile env h = (Normal uploaded, t) /\ upload_shape env uploaded t)
  \/ (exists e,
        uploadTestFile env h
        = (Throw e, [ConsoleLog blue InfoMark Uploading;
                     ExistsSync (TEST_FILE env) true;
                     ReadFileSync (TEST_FILE env) (inl e)])).
Proof.
  unfold uploadTestFile, try_catch, bind, call_throwing, call, bind.
  cbn. destruct (fs_existsSync env _ _); cbn.
  - destruct (fs_readFileSync env _ _) as [e|content]; cbn.
    + right. exists e. reflexivity.
    + left. destruct (s3_putObject env _ _) as [e|[]]; cbn.
      * eexists false, _. split; [reflexivity|]. apply upload_rejected.
      * eexists true, _. split; [reflexivity|]. apply upload_done.
  - left. eexists false, _. split; [reflexivity|]. apply upload_no_fixture.
Qed.

(** *** The verification of the records *)

(** None of the required fields is inherited from [Object.prototype]: for
    them [in] is the presence of an own property. *)
Lemma js_in_required field obj :
  In field requiredFields -> js_in field obj = has_own field obj.
Proof.
  unfold js_in. intros H.
  assert (E : existsb (String.eqb field) Object_prototype_keys = false).
  { cbn in H. repeat destruct H as [<-|H]; [reflexivity ..|contradiction]. }
  rewrite E. apply orb_false_r.
Qed.

Lemma missing_fields_own obj :
  filter (fun field => negb (js_in field obj)) requiredFields
  = filter (fun field => negb (has_own field obj)) requiredFields.
Proof.
  apply filter_ext_in. intros f Hf. rewrite js_in_required by exact Hf. reflexivity.
Qed.

Lemma verifyData_run h :
  verifyData env h =
  match dynamodb_scan env verify_params (h ++ [ConsoleLog blue InfoMark VerifyingData]) with
  | inl e =>
      (Normal false,
       [ConsoleLog blue InfoMark VerifyingData; Scan verify_params (inl e);
        ConsoleLog red CrossMark (VerifyError (message e))])
  | inr out =>
      match Items out with
      | Some (first :: others) =>
          (Normal true,
           [ConsoleLog blue InfoMark VerifyingData; Scan verify_params (inr out);
            ConsoleLog green CheckMark
              (TotalRecords (Z.of_nat (List.length (first :: others))));
            ConsoleLog blue InfoMark ExampleRecord;
            ConsoleLogItem first;
            verify_report first])
      | _ =>
          (Normal false,
           [ConsoleLog blue InfoMark VerifyingData; Scan verify_params (inr out);
            ConsoleLog green CheckMark (TotalRecords 0);
            ConsoleLog yellow WarnMark NoRecords])
      end
  end.
Proof.
  unfold verifyData, try_catch, call_throwing, call, bind, ret, throw,
    info, success, warning, error, log, emit, verify_params.
  cbn [app fst snd].
  destruct (dynamodb_scan env _ _) as [e|out]; cbn [app fst snd message].
  - reflexivity.
  - destruct (Items out) as [[|first others]|]; cbn [app fst snd]; try reflexivity.
    rewrite missing_fields_own. unfold verify_report.
    destruct (filter _ requiredFields) as [|m ms]; reflexivity.
Qed.

Lemma verifyData_returns h : exists b t, verifyData env h = (Normal b, t).
Proof.
  rewrite verifyData_run.
  destruct (dynamodb_scan env verify_params _) as [e|out]; [eauto|].
  destruct (Items out) as [[|first others]|]; eauto.
Qed.

(** C5, as amended.  [verifyData] returns; it makes one scan; it returns
    [true] exactly when that scan returned at least one record; and then
    what it prints ends with the example record, the first one returned,
    and the report on that record alone: when the record lacks fields of
    the list [id, timestamp, nome, preco, source_file], one warning that
    names every such field, and the step still returns [true]. *)
Theorem verifyData_checks_first_record (h : History) :
  exists b reply rest,
    verifyData env h
    = (Normal b,
       ConsoleLog blue InfoMark VerifyingData :: Scan verify_params reply :: rest)
    /\ (b = true <->
        exists out first others,
          reply = inr out /\ Items out = Some (first :: others))
    /\ (forall out first others,
          reply = inr out -> Items out = Some (first :: others) ->
          rest = [ConsoleLog green CheckMark
                    (TotalRecords (Z.of_nat (List.length (first :: others))));
                  ConsoleLog blue InfoMark ExampleRecord;
                  ConsoleLogItem first;
                  verify_report first]
          /\ (forall field,
                In field requiredFields -> has_own field first = false ->
                exists fields,
                  verify_report first = ConsoleLog yellow WarnMark (MissingFields fields)
                  /\ In field fields)).
Proof.
  rewrite verifyData_run.
  destruct (dynamodb_scan env verify_params _) as [e|out].
  - eexists false, (inl e), _. split; [reflexivity|]. split.
    + split; [discriminate|]. intros (? & ? & ? & ? & _). discriminate.
    + intros ? ? ? ?. discriminate.
  - destruct (Items out) as [[|first others]|] eqn:Hitems.
    + eexists false, (inr out), _. split; [reflexivity|]. split.
      * split; [discriminate|]. intros (? & ? & ? & [= <-] & ?). congruence.
      * intros ? ? ? [= <-] ?. congruence.
    + eexists true, (inr out), _. split; [reflexivity|]. split.
      * split; [eauto|reflexivity].
      * intros ? f o [= <-] Ho. rewrite Hitems in Ho. injection Ho as <- <-.
        split; [reflexivity|].
        intros field Hreq Habsent. unfold verify_report.
        assert (Hin : In field (filter (fun f => negb (has_own f first)) requiredFields)).
        { apply filter_In. split; [exact Hreq|]. rewrite Habsent. reflexivity. }
        destruct (filter _ requiredFields) as [|m ms]; [contradiction|].
        eexists. split; [reflexivity|exact Hin].
    + eexists false, (inr out), _. split; [reflexivity|]. split.
      * split; [discriminate|]. intros (? & ? & ? & [= <-] & ?). congruence.
      * intros ? ? ? [= <-] ?. congruence.
Qed.

(** *** The API test *)

Ltac tidy :=
  repeat match goal with
         | H : created_with_body _ _ _ |- _ => unfold created_with_body in H
         | H : exists _, _ |- _ => destruct H
         | H : _ /\ _ |- _ => destruct H
         | H : inr _ = inr _ |- _ => injection H as H; subst
         | H : inl _ = inr _ |- _ => discriminate H
         | H : ?x = inr _, H' : ?x = inr _ |- _ =>
             rewrite H in H'; injection H' as H'; subst
         | H : ?x = inl _, H' : ?x = inr _ |- _ =>
             rewrite H in H'; discriminate H'
         | H : interpolated _ = inl _ |- _ =>
             apply interpolated_inl in H
         | H : interpolated _ = inr _ |- _ =>
             apply interpolated_inr in H
         | H : strict_eq_num _ _ = true |- _ =>
             apply strict_eq_num_true in H; subst
         | H : strict_eq_num (JNum 201) 201 = false |- _ => discriminate H
         end.

Lemma testApi_spec h :
  wp (testApi env) h
    (fun c t => exists b reply rest,
       c = Normal b
       /\ t = ConsoleLog blue InfoMark TestingApi :: Invoke api_request reply :: rest
       /\ api_post env b reply rest).
Proof.
  unfold testApi. wp_steps; cbn [app].
  all: eexists _, _, _; (split; [reflexivity|]); (split; [reflexivity|]).
  all: unfold api_post.
  all: split; [split; [intros Hb|intros (id & C)]
              |split; [intros id C|intros payload response status E1 E2 E3 Hne]].
  all: tidy; try discriminate; try reflexivity; try congruence.
  eexists. unfold created_with_body. eexists _, _, _, _.
  repeat split; eassumption.
Qed.

Lemma testApi_returns h : exists b t, testApi env h = (Normal b, t).
Proof.
  destruct (wp_elim _ _ _ (testApi_spec h)) as (b & reply & rest & Hc & Ht & _).
  exists b, (snd (testApi env h)).
  rewrite (surjective_pairing (testApi env h)), Hc. reflexivity.
Qed.

(** C6, as amended.  [testApi] returns; it makes one invocation, with the
    fixed payload; it returns [true] exactly when the answer is a response
    whose status code is 201, whose body parses to a value that has
    properties, and whose [id] property, present or not, can be converted
    to a string (the template literal that reports it does not throw); it
    then reports that [id]; a response with any other status code makes it
    return [false]. *)
Theorem testApi_success_iff (h : History) :
  exists b reply rest,
    testApi env h
    = (Normal b,
       ConsoleLog blue InfoMark TestingApi :: Invoke api_request reply :: rest)
    /\ (b = true <-> exists id, created_with_body env reply id)
    /\ (forall id, created_with_body env reply id ->
          rest = [ConsoleLog green CheckMark ApiWorking;
                  ConsoleLog blue InfoMark (RecordCreated id)])
    /\ (forall payload response status,
          reply = inr payload ->
          JSON_parse env payload = inr response ->
          get_prop response "statusCode" = inr status ->
          status <> JNum 201 -> b = false).
Proof.
  destruct (wp_elim _ _ _ (testApi_spec h)) as (b & reply & rest & Hc & Ht & P).
  exists b, reply, rest. split; [|exact P].
  rewrite (surjective_pairing (testApi env h)), Hc, Ht. reflexivity.
Qed.

End Steps.

(** C5, as the specification words it, fails: when the scan returns a
    complete record followed by one that lacks [source_file], the step
    prints that all expected fields are present and reports nothing about
    the second record. *)
Lemma verifyData_not_as_specified :
  ~ verification_as_specified env_two_records [].
Proof.
  unfold verification_as_specified. intros H.
  destruct (H {| Items := Some [complete_item; api_item] |}
              [complete_item; api_item] api_item "source_file")
    as (fields & Hin & _).
  - vm_compute. tauto.
  - reflexivity.
  - right. left. reflexivity.
  - cbn. tauto.
  - reflexivity.
  - vm_compute in Hin.
    repeat (destruct Hin as [Hin|Hin]; [discriminate Hin|]). exact Hin.
Qed.

(** C6, as the specification words it, fails: when the function answers
    with status 201 and no body, the status indicates creation and yet the
    step returns [false], because parsing the missing body throws. *)
Lemma testApi_not_as_specified :
  ~ api_test_as_specified env_created_without_body [].
Proof.
  unfold api_test_as_specified. intros [_ H].
  assert (C : status_created env_created_without_body
                (snd (testApi env_created_without_body []))).
  { exists (JStr created_without_body_text), (JObj [("statusCode", JNum 201)]).
    split; [vm_compute; tauto|]. split; reflexivity. }
  apply H in C. vm_compute in C. discriminate C.
Qed.

(** When the [id] of the created record cannot be converted to a string,
    the template literal that reports it throws inside the [try]: the step
    has already printed that the API works, and it returns [false]. *)
Lemma testApi_unprintable_id_fails :
  testApi env_unprintable_id []
  = (Normal false,
     [ConsoleLog blue InfoMark TestingApi;
      Invoke api_request (inr (JStr unprintable_text));
      ConsoleLog green CheckMark ApiWorking;
      ConsoleLog red CrossMark (ApiError "Cannot convert object to primitive value")]).
Proof. vm_compute. reflexivity. Qed.

(** *** The whole run *)

Section Run.

Variable env : Env.

(** Symbolic execution of a step of [main]. *)
Ltac main_step :=
  lazymatch goal with
  | |- wp (checkLocalStack _) ?h _ =>
      apply wp_checkLocalStack;
      destruct (s3_listBuckets env _) as [?e|[]]; cbv beta iota
  | |- wp (checkBucket _) ?h _ =>
      apply wp_checkBucket;
      destruct (s3_headBucket env _ _) as [?e|[]]; cbv beta iota
  | |- wp (checkTable _) ?h _ =>
      apply wp_checkTable;
      destruct (dynamodb_scan env _ _) as [?e|?out]; cbv beta iota
  | |- wp (uploadTestFile _) ?h _ =>
      destruct (uploadTestFile_run env h)
        as [(uploaded & t_upload & Hrun & Hupload)|(?e & Hrun)];
      (eapply wp_run; [exact Hrun|]); clear Hrun; cbv beta iota
  | |- wp (waitForProcessing _ _ _) ?h _ =>
      destruct (waitForProcessing_returns env 10 2000 h)
        as (processed & t_poll & Hpoll);
      (eapply wp_run; [exact Hpoll|]); cbv beta iota
  | |- wp (verifyData _) ?h _ =>
      destruct (verifyData_returns env h) as (verified & t_verify & Hverify);
      (eapply wp_run; [exact Hverify|]); cbv beta iota
  | |- wp (testApi _) ?h _ =>
      destruct (testApi_returns env h) as (api & t_api & Hapi);
      (eapply wp_run; [exact Hapi|]); cbv beta iota
  | |- wp cleanup _ _ => unfold cleanup
  | |- wp (if negb true then _ else _) _ _ => cbn [negb]
  | |- wp (if negb false then _ else _) _ _ => cbn [negb]
  | |- wp (if true then _ else _) _ _ => cbv iota
  | |- wp (if false then _ else _) _ _ => cbv iota
  | _ => wp_step
  end.

(** Every run of the script has one of the five shapes. *)
Lemma run_classified : run_shape env (fst (run env)) (snd (run env)).
Proof.
  apply (wp_elim (script env) [] (run_shape env)).
  unfold script, main.
  do 12 main_step.
  - (* the emulator does not answer *)
    repeat main_step. apply run_emulator_unreachable.
  - do 6 main_step.
    + (* no bucket *)
      repeat main_step. apply run_bucket_absent.
    + do 3 main_step.
      * (* no table *)
        repeat main_step. apply run_table_absent.
      * do 8 main_step.
        -- (* the script runs to its end *)
           do 14 main_step.
           destruct uploaded, processed, verified, api; cbn [negb];
             repeat main_step; cbn [app];
             match goal with
             | Hu : upload_shape env ?u _,
               Hp : waitForProcessing _ _ _ _ = (Normal ?p, _),
               Hv : verifyData _ _ = (Normal ?v, _),
               Ha : testApi _ _ = (Normal ?a, _) |- _ =>
                 exact (run_completed env out u t_upload p t_poll v t_verify
                          a t_api _ _ _ Hu Hp Hv Ha)
             end.
        -- (* reading the fixture throws *)
           repeat main_step. cbn [app]. apply run_fixture_unreadable.
Qed.

Ltac classify :=
  let S := fresh "S" in
  pose proof run_classified as S;
  destruct (run env) as [c t]; cbn [fst snd] in *;
  destruct S as [e0|e0|e0|out e0|out uploaded t_upload processed t_poll
                   verified t_verify api t_api h_poll h_verify h_api
                   Hupload Hpoll Hverify Hapi].

(** When the checks pass, the run ends with code 0, unless reading the
    fixture throws. *)
Lemma exit_code_after_checks (answer : ScanOutput) :
  table_probe (snd (run env)) = Some (inr answer) ->
  (fst (run env) = Normal tt /\ exit_code (fst (run env)) = 0)
  \/ (exists e,
        run env
        = (Exit 1,
           checks_passed answer ++
           [ConsoleLog blue InfoMark Uploading;
            ExistsSync (TEST_FILE env) true;
            ReadFileSync (TEST_FILE env) (inl e);
            ConsoleLog red CrossMark (Fatal (message e));
            ConsoleError e])).
Proof.
  classify; intros H; cbn in H; try discriminate H.
  - injection H as ->. right. exists e0. reflexivity.
  - left. split; reflexivity.
Qed.

(** C3.  If the emulator is unreachable, that is, if the first call of the
    run, listing the buckets, fails, then the script calls [process.exit(1)],
    the exit code is 1, and listing the buckets is all the script did
    besides printing: no resource check, no upload, no sleep, no polling,
    no invocation. *)
Theorem emulator_unreachable_exits_at_once (e : JsError) :
  emulator_probe (snd (run env)) = Some (inl e) ->
  fst (run env) = Exit 1
  /\ exit_code (fst (run env)) = 1
  /\ actions (snd (run env)) = [ListBuckets (inl e)].
Proof.
  classify; intros H; cbn in H; try discriminate H.
  injection H as ->. repeat split.
Qed.

(** C4.  If the bucket or the table is absent, that is, if [headBucket] or
    the scan of [checkTable] (the first scan of the run) fails, then the
    script calls [process.exit(1)], the exit code is 1, and no call of the
    upload step was made: the fixture was neither looked for nor read, and
    no object was put. *)
Theorem missing_resource_exits_before_upload :
  (exists e, bucket_probe (snd (run env)) = Some (inl e))
  \/ (exists e, table_probe (snd (run env)) = Some (inl e)) ->
  fst (run env) = Exit 1
  /\ exit_code (fst (run env)) = 1
  /\ existsb is_upload (snd (run env)) = false.
Proof.
  classify; intros [[e H]|[e H]]; cbn in H; try discriminate H;
    repeat split.
Qed.

(** C10.  If the fixture file does not exist, [uploadTestFile] reports it
    and returns [false], having neither read a file nor put an object; and
    a run of the script that finds the fixture missing goes on to its end:
    it returns normally, the exit code is 0, and the summary it prints is
    that some tests failed. *)
Theorem missing_fixture_is_recoverable :
  (forall h,
     fixture_probe (snd (uploadTestFile env h)) = Some false ->
     uploadTestFile env h
     = (Normal false,
        [ConsoleLog blue InfoMark Uploading;
         ExistsSync (TEST_FILE env) false;
         ConsoleLog red CrossMark (FixtureNotFound (TEST_FILE env))]))
  /\ (fixture_probe (snd (run env)) = Some false ->
      fst (run env) = Normal tt
      /\ exit_code (fst (run env)) = 0
      /\ exists t0, snd (run env) = t0 ++ summary false).
Proof.
  split.
  - intros h H.
    destruct (uploadTestFile_run env h) as [(u & t & E & S)|(e & E)];
      rewrite E in *; cbn [snd] in H.
    + destruct S; cbn in H; try discriminate H. reflexivity.
    + discriminate H.
  - classify; intros H; cbn in H; try discriminate H.
    destruct Hupload; cbn in H; try discriminate H.
    repeat split. cbn [andb].
    eexists. rewrite !app_comm_cons, !app_assoc. reflexivity.
Qed.

End Run.

(** C3 at a sample environment: the emulator refuses every connection. *)
Lemma emulator_unreachable_exits_at_once_witness :
  fst (run env_emulator_down) = Exit 1
  /\ exit_code (fst (run env_emulator_down)) = 1
  /\ actions (snd (run env_emulator_down)) = [ListBuckets (inl refused)].
Proof.
  apply (emulator_unreachable_exits_at_once env_emulator_down refused).
  vm_compute. reflexivity.
Defined.

(** C4 at two sample environments: no bucket; a bucket and no table. *)
Lemma missing_resource_exits_before_upload_witness :
  (fst (run env_no_bucket) = Exit 1
   /\ exit_code (fst (run env_no_bucket)) = 1
   /\ existsb is_upload (snd (run env_no_bucket)) = false)
  /\ (fst (run env_no_table) = Exit 1
      /\ exit_code (fst (run env_no_table)) = 1
      /\ existsb is_upload (snd (run env_no_table)) = false).
Proof.
  split.
  - apply (missing_resource_exits_before_upload env_no_bucket).
    left. exists not_found. vm_compute. reflexivity.
  - apply (missing_resource_exits_before_upload env_no_table).
    right. exists no_table. vm_compute. reflexivity.
Defined.

(** C10 at a sample environment: everything deployed, no fixture file. *)
Lemma missing_fixture_is_recoverable_witness :
  uploadTestFile env_no_fixture []
  = (Normal false,
     [ConsoleLog blue InfoMark Uploading;
      ExistsSync (TEST_FILE env_no_fixture) false;
      ConsoleLog red CrossMark (FixtureNotFound (TEST_FILE env_no_fixture))])
  /\ (fst (run env_no_fixture) = Normal tt
      /\ exit_code (fst (run env_no_fixture)) = 0
      /\ exists t0, snd (run env_no_fixture) = t0 ++ summary false).
Proof.
  destruct (missing_fixture_is_recoverable env_no_fixture) as [U R].
  split; [apply U|apply R]; vm_compute; reflexivity.
Defined.

(** C2, at the input on which the script departs from it.  Everything is
    deployed and the three checks pass, but the fixture path, which exists,
    cannot be read: [readFileSync] is outside the [try] of [uploadTestFile],
    its exception leaves [uploadTestFile] and [main], and the handler at the
    top level ends the process with code 1; the upload failure is not
    recorded in [allPassed] and no summary is printed. *)
Theorem unreadable_fixture_exits_1 :
  run env_unreadable_fixture
  = (Exit 1,
     checks_passed {| Items := Some [complete_item] |} ++
     [ConsoleLog blue InfoMark Uploading;
      ExistsSync (TEST_FILE env_unreadable_fixture) true;
      ReadFileSync (TEST_FILE env_unreadable_fixture) (inl is_a_directory);
      ConsoleLog red CrossMark (Fatal (message is_a_directory));
      ConsoleError is_a_directory])
  /\ exit_code (fst (run env_unreadable_fixture)) = 1.
Proof. split; reflexivity. Qed.

End PipelineFacts.

(** ** The setup runner *)

Module SetupFacts.

Import Js Js.Notations Setup JsFacts.

(** *** Observations and concatenation *)

Lemma outside_view_app t1 t2 :
  outside_view (t1 ++ t2) = outside_view t1 ++ outside_view t2.
Proof. apply filter_app. Qed.

Lemma same_outside_app h1 h2 t :
  same_outside h1 h2 -> same_outside (h1 ++ t) (h2 ++ t).
Proof.
  unfold same_outside. intros E. rewrite !outside_view_app, E. reflexivity.
Qed.

Lemma elapsed_app t1 t2 : elapsed (t1 ++ t2) = elapsed t1 + elapsed t2.
Proof.
  induction t1 as [|ev t1 IH]; [reflexivity|].
  destruct ev; cbn [app elapsed]; lia.
Qed.

Lemma elapsed_nonneg t : 0 <= elapsed t.
Proof.
  induction t as [|ev t IH]; [reflexivity|].
  destruct ev; cbn [elapsed]; lia.
Qed.

Lemma timer_deadlines_app t1 : forall now t2,
  timer_deadlines now (t1 ++ t2)
  = timer_deadlines now t1 ++ timer_deadlines (now + elapsed t1) t2.
Proof.
  induction t1 as [|ev t1 IH]; intros now t2.
  - cbn. rewrite Z.add_0_r. reflexivity.
  - destruct ev; cbn [app timer_deadlines elapsed]; rewrite IH;
      try reflexivity.
    rewrite Z.add_assoc. reflexivity.
Qed.

Lemma fold_max_lower e l : e <= fold_right Z.max e l.
Proof. induction l as [|x l IH]; cbn; lia. Qed.

(** A timer that fires before the script is over does not delay the end of
    the process. *)
Lemma fold_max_early e x l1 l2 :
  x <= e ->
  fold_right Z.max e (l1 ++ x :: l2) = fold_right Z.max e (l1 ++ l2).
Proof.
  intros Hx. induction l1 as [|y l1 IH]; cbn.
  - pose proof (fold_max_lower e l2). lia.
  - rewrite IH. reflexivity.
Qed.

Section Steps.

Variable env : Env.

(** *** The steps *)

Lemma execute_run command options h :
  let stdio := match options with Some stdio => stdio | None => inherit end in
  let answer :=
    child_process_execSync env command stdio
      (outside_view (h ++ [ConsoleLog (Executing command)])) in
  execute env command options h =
  match snd answer with
  | inr _ =>
      (Normal true,
       [ConsoleLog (Executing command);
        ExecSync command stdio (fst answer) (snd answer);
        ConsoleLog CommandOk])
  | inl e =>
      (Normal false,
       [ConsoleLog (Executing command);
        ExecSync command stdio (fst answer) (snd answer);
        ConsoleError (CommandError (message e))])
  end.
Proof.
  cbv zeta.
  unfold execute, execSync, try_catch, call, lift, bind, ret, throw,
    console_log, console_error, emit.
  cbn [app fst snd].
  destruct (child_process_execSync env command _ _) as [d [e|[]]]; reflexivity.
Qed.

Lemma wp_execute command options h Q :
  (forall duration r,
     child_process_execSync env command
       (match options with Some stdio => stdio | None => inherit end)
       (outside_view (h ++ [ConsoleLog (Executing command)])) = (duration, r) ->
     match r with
     | inr _ =>
         Q (Normal true)
           [ConsoleLog (Executing command);
            ExecSync command
              (match options with Some stdio => stdio | None => inherit end)
              duration r;
            ConsoleLog CommandOk]
     | inl e =>
         Q (Normal false)
           [ConsoleLog (Executing command);
            ExecSync command
              (match options with Some stdio => stdio | None => inherit end)
              duration r;
            ConsoleError (CommandError (message e))]
     end) ->
  wp (execute env command options) h Q.
Proof.
  intros H. unfold wp. rewrite execute_run. cbv zeta.
  destruct (child_process_execSync env command _ _) as [d r] eqn:E.
  specialize (H d r eq_refl). cbn [fst snd]. destruct r; exact H.
Qed.

Lemma wp_execSync command stdio h Q :
  (forall duration r,
     child_process_execSync env command stdio (outside_view h) = (duration, r) ->
     match r with
     | inr _ => Q (Normal tt) [ExecSync command stdio duration r]
     | inl e => Q (Throw e) [ExecSync command stdio duration r]
     end) ->
  wp (execSync env command stdio) h Q.
Proof.
  intros H. unfold wp, execSync, call, lift, bind, ret, throw.
  destruct (child_process_execSync env command _ _) as [d r] eqn:E.
  specialize (H d r eq_refl). cbn [fst snd]. destruct r as [e|[]]; exact H.
Qed.

Lemma wp_checkFile filePath h Q :
  Q (Normal (fs_existsSync env filePath (outside_view h)))
    [ExistsSync filePath (fs_existsSync env filePath (outside_view h))] ->
  wp (checkFile env filePath) h Q.
Proof. exact (fun H => H). Qed.

(** One step of symbolic execution of the setup script. *)
Ltac setup_step :=
  lazymatch goal with
  | |- wp (bind _ _) _ _ => apply wp_bind
  | |- wp (ret _) _ _ => apply wp_ret
  | |- wp (emit _) _ _ => apply wp_emit
  | |- wp (process_exit _) _ _ => apply wp_process_exit
  | |- wp (console_log _) _ _ => unfold console_log
  | |- wp (console_error _) _ _ => unfold console_error
  | |- wp (setTimeout_noop _) _ _ => unfold setTimeout_noop
  | |- wp (checkFile _ _) _ _ =>
      apply wp_checkFile; destruct (fs_existsSync env _ _)
  | |- wp (execute _ _ _) _ _ =>
      apply wp_execute; intros ?d [?e|[]] _
  | |- wp (execSync _ _ _) _ _ =>
      apply wp_execSync; intros ?d [?e|[]] _
  | |- wp (if negb true then _ else _) _ _ => cbn [negb]
  | |- wp (if negb false then _ else _) _ _ => cbn [negb]
  | |- wp (if true then _ else _) _ _ => cbv iota
  | |- wp (if false then _ else _) _ _ => cbv iota
  end; cbv beta iota.

(** C7, as amended.  The setup script ends with exit code 1 when the
    directory check, the dependency install, the container-runtime check,
    the start of the emulator, the wait command or the deployment fails,
    and with exit code 0 otherwise; a failure of the basic test does not
    change the exit code. *)
Theorem exit_code_of_setup :
  exit_code (run env)
  = if existsb fatal_failure (seen (run env)) then 1 else 0.
Proof.
  assert (W : wp (script env) []
                (fun c t =>
                   exit_code (behaviour (c, t))
                   = if existsb fatal_failure (seen (behaviour (c, t)))
                     then 1 else 0)).
  { unfold script, script_with, steps_before_wait, steps_after_wait, wait_step.
    repeat setup_step; reflexivity. }
  unfold run. rewrite (surjective_pairing (script env [])). exact W.
Qed.

(** *** Blindness to timers *)

Lemma blind_ret {A} (a : A) : blind (ret a : Script A).
Proof. intros h1 h2 _. reflexivity. Qed.

Lemma blind_emit ev : blind (emit ev : Script unit).
Proof. intros h1 h2 _. reflexivity. Qed.

Lemma blind_process_exit {A} code : blind (process_exit code : Script A).
Proof. intros h1 h2 _. reflexivity. Qed.

Lemma blind_bind {A B} (m : Script A) (f : A -> Script B) :
  blind m -> (forall a, blind (f a)) -> blind (bind m f).
Proof.
  intros Hm Hf h1 h2 E. unfold bind. rewrite (Hm h1 h2 E).
  destruct (m h2) as [[a|e|code] t]; try reflexivity.
  rewrite (Hf a (h1 ++ t) (h2 ++ t)); [reflexivity|].
  apply same_outside_app. exact E.
Qed.

Lemma blind_try_catch {A} (m : Script A) (handler : JsError -> Script A) :
  blind m -> (forall e, blind (handler e)) -> blind (try_catch m handler).
Proof.
  intros Hm Hh h1 h2 E. unfold try_catch. rewrite (Hm h1 h2 E).
  destruct (m h2) as [[a|e|code] t]; try reflexivity.
  rewrite (Hh e (h1 ++ t) (h2 ++ t)); [reflexivity|].
  apply same_outside_app. exact E.
Qed.

Lemma blind_execSync command stdio : blind (execSync env command stdio).
Proof.
  intros h1 h2 E. unfold execSync, call, bind, lift. rewrite E.
  destruct (snd _); reflexivity.
Qed.

Lemma blind_checkFile filePath : blind (checkFile env filePath).
Proof.
  intros h1 h2 E. unfold checkFile, call. rewrite E. reflexivity.
Qed.

Lemma blind_if {A} (b : bool) (m1 m2 : Script A) :
  blind m1 -> blind m2 -> blind (if b then m1 else m2).
Proof. destruct b; auto. Qed.

Lemma blind_execute command options : blind (execute env command options).
Proof.
  unfold execute, console_log, console_error.
  repeat first [ apply blind_execSync | apply blind_emit | apply blind_ret
               | apply blind_try_catch; [|intros ?]
               | apply blind_bind; [|intros ?] ].
Qed.

Lemma blind_steps_after_wait : blind (steps_after_wait env).
Proof.
  unfold steps_after_wait, console_log, console_error.
  repeat first [ apply blind_execute | apply blind_checkFile
               | apply blind_emit | apply blind_ret | apply blind_process_exit
               | apply blind_if
               | apply blind_bind; [|intros ?] ].
Qed.

(** *** The two waits *)

Lemma wait_step_run h :
  wait_step env h =
  let answer := child_process_execSync env "sleep 30" inherit (outside_view h) in
  (match snd answer with inr _ => Normal tt | inl e => Throw e end,
   [SetTimeout 30000; ExecSync "sleep 30" inherit (fst answer) (snd answer)]).
Proof.
  unfold wait_step, setTimeout_noop, execSync, call, lift, bind, emit, ret, throw.
  cbn [app fst snd]. rewrite outside_view_app. cbn [outside_view filter is_timer negb].
  rewrite app_nil_r.
  destruct (child_process_execSync env _ _ _) as [d [e|[]]]; reflexivity.
Qed.

Lemma single_blocking_wait_run h :
  single_blocking_wait env h =
  let answer := child_process_execSync env "sleep 30" inherit (outside_view h) in
  (match snd answer with inr _ => Normal tt | inl e => Throw e end,
   [ExecSync "sleep 30" inherit (fst answer) (snd answer)]).
Proof.
  unfold single_blocking_wait, execSync, call, lift, bind, emit, ret, throw.
  destruct (child_process_execSync env _ _ _) as [d [e|[]]]; reflexivity.
Qed.

(** The script, as the three parts it is made of. *)
Lemma script_with_run (wait : Script unit) h :
  script_with env wait h =
  match steps_before_wait env h with
  | (Normal _, tP) =>
      match wait ((h ++ tP) ++ [ConsoleLog Waiting]) with
      | (Normal _, tW) =>
          let (c, tS) :=
            steps_after_wait env (((h ++ tP) ++ [ConsoleLog Waiting]) ++ tW) in
          (c, tP ++ ConsoleLog Waiting :: tW ++ tS)
      | (Throw e, tW) => (Throw e, tP ++ ConsoleLog Waiting :: tW)
      | (Exit code, tW) => (Exit code, tP ++ ConsoleLog Waiting :: tW)
      end
  | (Throw e, tP) => (Throw e, tP)
  | (Exit code, tP) => (Exit code, tP)
  end.
Proof.
  unfold script_with, bind, console_log, emit.
  destruct (steps_before_wait env h) as [[[]|e|code] tP]; try reflexivity.
  destruct (wait _) as [[[]|e|code] tW]; try reflexivity.
  destruct (steps_after_wait env _) as [c tS]. reflexivity.
Qed.

(** Whatever the [sleep] command does, the timer changes nothing of what
    the process does to the outside, of the exception it dies of, or of its
    exit code; only the instant at which the process ends is at stake. *)
Lemma timer_changes_at_most_the_end :
  seen (run env) = seen (run_single_wait env)
  /\ uncaught (run env) = uncaught (run_single_wait env)
  /\ exit_code (run env) = exit_code (run_single_wait env).
Proof.
  unfold run, run_single_wait, script, script_single_wait.
  rewrite !script_with_run.
  destruct (steps_before_wait env []) as [[[]|e|code] tP];
    try solve [repeat split].
  rewrite wait_step_run, single_blocking_wait_run. cbv zeta.
  destruct (child_process_execSync env "sleep 30" inherit _) as [d [e|[]]];
    cbn [fst snd].
  - unfold behaviour, seen, uncaught, exit_code.
    rewrite !outside_view_app. repeat split.
  - rewrite (blind_steps_after_wait
               ((([] ++ tP) ++ [ConsoleLog Waiting])
                ++ [SetTimeout 30000; ExecSync "sleep 30" inherit d (inr tt)])
               ((([] ++ tP) ++ [ConsoleLog Waiting])
                ++ [ExecSync "sleep 30" inherit d (inr tt)])).
    2:{ unfold same_outside. rewrite !outside_view_app. reflexivity. }
    destruct (steps_after_wait env _) as [[[]|e|code] tS];
      unfold behaviour, seen, uncaught, exit_code;
      rewrite !outside_view_app; repeat split.
Qed.

(** C8.  Provided the [sleep 30] command, when it succeeds, lasts at least
    30 seconds, the script and the script without the no-op timer behave
    alike: the same console output, file probes and commands with the same
    answers, the same uncaught exception if any, the same exit code, and
    the same instant at which the process ends.  The wait step is a single
    blocking wait. *)
Theorem timer_is_dead_code :
  sleep_is_honest env -> run env = run_single_wait env.
Proof.
  intros Hsleep.
  unfold run, run_single_wait, script, script_single_wait.
  rewrite !script_with_run.
  destruct (steps_before_wait env []) as [[[]|e|code] tP]; try reflexivity.
  rewrite wait_step_run, single_blocking_wait_run. cbv zeta.
  destruct (child_process_execSync env "sleep 30" inherit _) as [d [e|[]]] eqn:Esleep;
    cbn [fst snd].
  - (* the sleep command fails: an uncaught exception, at once *)
    unfold behaviour. f_equal.
    + rewrite !outside_view_app. reflexivity.
    + rewrite !elapsed_app. reflexivity.
  - (* the sleep command succeeds *)
    apply Hsleep in Esleep.
    rewrite (blind_steps_after_wait
               ((([] ++ tP) ++ [ConsoleLog Waiting])
                ++ [SetTimeout 30000; ExecSync "sleep 30" inherit d (inr tt)])
               ((([] ++ tP) ++ [ConsoleLog Waiting])
                ++ [ExecSync "sleep 30" inherit d (inr tt)])).
    2:{ unfold same_outside. rewrite !outside_view_app. reflexivity. }
    destruct (steps_after_wait env _) as [[[]|e|code] tS];
      unfold behaviour; f_equal;
      rewrite ?outside_view_app, ?elapsed_app; try reflexivity.
    rewrite !timer_deadlines_app. cbn [timer_deadlines app elapsed].
    rewrite fold_max_early; [reflexivity|].
    pose proof (elapsed_nonneg tS). lia.
Qed.

End Steps.

(** C7, as the specification words it, fails: when every step succeeds but
    the basic test, a step has failed and the exit code is 0. *)
Lemma setup_does_not_exit_on_test_failure :
  ~ exits_on_any_step_failure env_test_fails.
Proof.
  unfold exits_on_any_step_failure. intros H.
  assert (E : exit_code (run env_test_fails) = 1) by (apply H; reflexivity).
  vm_compute in E. discriminate E.
Qed.

(** C8 at a sample environment, whose [sleep 30] lasts 30.004 seconds. *)
Lemma timer_is_dead_code_witness : run env_all_good = run_single_wait env_all_good.
Proof.
  apply (timer_is_dead_code env_all_good).
  intros h duration E. cbn in E. injection E as <-. lia.
Defined.

End SetupFacts.

(** ** More on the test runner *)

Module PipelineMore.

Import Js Js.Notations TestPipeline JsFacts PipelineFacts PipelineView.

(** *** Observations, printing and concatenation *)

Lemma scan_replies_app t1 t2 :
  scan_replies (t1 ++ t2) = scan_replies t1 ++ scan_replies t2.
Proof. apply flat_map_app. Qed.

Lemma sleeps_app t1 t2 : sleeps (t1 ++ t2) = sleeps t1 ++ sleeps t2.
Proof. apply flat_map_app. Qed.

Lemma puts_app t1 t2 : puts (t1 ++ t2) = puts t1 ++ puts t2.
Proof. apply flat_map_app. Qed.

Lemma invocations_app t1 t2 :
  invocations (t1 ++ t2) = invocations t1 ++ invocations t2.
Proof. apply flat_map_app. Qed.

Lemma scans_app t1 t2 : scans (t1 ++ t2) = scans t1 ++ scans t2.
Proof. apply flat_map_app. Qed.

Lemma actions_app t1 t2 : actions (t1 ++ t2) = actions t1 ++ actions t2.
Proof. apply filter_app. Qed.

Lemma scan_replies_actions t : scan_replies (actions t) = scan_replies t.
Proof.
  unfold scan_replies, actions.
  induction t as [|ev t IH]; [reflexivity|].
  destruct ev; cbn; rewrite ?IH; reflexivity.
Qed.

Lemma scans_actions t : scans (actions t) = scans t.
Proof.
  unfold scans, actions.
  induction t as [|ev t IH]; [reflexivity|].
  destruct ev; cbn; rewrite ?IH; reflexivity.
Qed.

Lemma sleeps_actions t : sleeps (actions t) = sleeps t.
Proof.
  unfold sleeps, actions.
  induction t as [|ev t IH]; [reflexivity|].
  destruct ev; cbn; rewrite ?IH; reflexivity.
Qed.

Lemma puts_actions t : puts (actions t) = puts t.
Proof.
  unfold puts, actions.
  induction t as [|ev t IH]; [reflexivity|].
  destruct ev; cbn; rewrite ?IH; reflexivity.
Qed.

Lemma invocations_actions t : invocations (actions t) = invocations t.
Proof.
  unfold invocations, actions.
  induction t as [|ev t IH]; [reflexivity|].
  destruct ev; cbn; rewrite ?IH; reflexivity.
Qed.

(** A trace that only polls puts and invokes nothing. *)
Lemma poll_actions_put_nothing interval t :
  forallb (is_poll_action interval) t = true ->
  puts t = [] /\ invocations t = [].
Proof.
  induction t as [|ev t IH]; [split; reflexivity|].
  cbn [forallb]. rewrite andb_true_iff. intros [Hev Ht].
  destruct (IH Ht) as [P I].
  destruct ev; cbn in Hev; try discriminate Hev; cbn; auto.
Qed.

Section Steps.

Variable env : Env.

(** *** What the polling touches *)

Lemma poll_trace_actions maxAttempts interval i b t :
  poll_trace maxAttempts interval i b t ->
  forallb (is_poll_action interval) (actions t) = true.
Proof.
  induction 1; cbn; rewrite ?Z.eqb_refl; auto.
Qed.

(** Every scan of a polling asks for one record of the table. *)
Lemma poll_trace_scans maxAttempts interval i b t :
  poll_trace maxAttempts interval i b t ->
  scans t = map (pair poll_params) (scan_replies t).
Proof.
  unfold scans, scan_replies.
  induction 1; cbn [flat_map app map]; rewrite ?IHpoll_trace; reflexivity.
Qed.

Lemma poll_trace_found_line maxAttempts interval i t :
  poll_trace maxAttempts interval i true t ->
  In (ConsoleLog green CheckMark ProcessedDataFound) t
  /\ exists out, has_items out = true /\ In (Scan poll_params (inr out)) t.
Proof.
  intros P. remember true as b eqn:Hb. induction P; subst; try discriminate.
  - split; [cbn; auto|]. exists out. cbn. auto.
  - destruct (IHP eq_refl) as (L & o & Ho & Hin).
    split; [cbn; auto|]. exists o. cbn. auto.
  - destruct (IHP eq_refl) as (L & o & Ho & Hin).
    split; [cbn; auto|]. exists o. cbn. auto.
Qed.

(** X11.  Besides printing, [waitForProcessing] only scans the table for one
    record and sleeps the interval: it puts no object and invokes no
    function. *)
Theorem waitForProcessing_only_polls (maxAttempts interval : Z) (h : History) :
  forallb (is_poll_action interval)
    (actions (snd (waitForProcessing env maxAttempts interval h))) = true
  /\ puts (snd (waitForProcessing env maxAttempts interval h)) = []
  /\ invocations (snd (waitForProcessing env maxAttempts interval h)) = [].
Proof.
  destruct (waitForProcessing_run env maxAttempts interval h) as (b & t & E & P).
  rewrite E. cbn [snd].
  assert (A : forallb (is_poll_action interval)
                (actions (ConsoleLog blue InfoMark WaitingForLambda :: t)) = true).
  { cbn. eapply poll_trace_actions. eassumption. }
  split; [exact A|].
  rewrite <- puts_actions, <- invocations_actions.
  eapply poll_actions_put_nothing. exact A.
Qed.

(** X6.  With a budget of no attempt ([maxAttempts <= 0]) the loop body
    never runs: [waitForProcessing] announces the wait, reports the timeout
    and returns [false] without a scan or a sleep. *)
Theorem waitForProcessing_without_budget (maxAttempts interval : Z) (h : History) :
  maxAttempts <= 0 ->
  waitForProcessing env maxAttempts interval h
  = (Normal false,
     [ConsoleLog blue InfoMark WaitingForLambda; ConsoleLog red CrossMark Timeout]).
Proof.
  intros Hn.
  destruct (waitForProcessing_run env maxAttempts interval h) as (b & t & E & P).
  rewrite E. inversion P; subst; try lia. reflexivity.
Qed.

(** *** What the API test touches *)

Lemma testApi_footprint h :
  wp (testApi env) h
    (fun c t => exists b reply,
       c = Normal b /\ actions t = [Invoke api_request reply]).
Proof.
  unfold testApi. wp_steps; cbn [app]; eexists _, _; split; reflexivity.
Qed.

(** X10.  [testApi] always returns a boolean (every failure is caught), and
    besides printing it does one thing: it invokes the function once, with
    the fixed request. *)
Theorem testApi_invokes_once (h : History) :
  exists b reply,
    fst (testApi env h) = Normal b
    /\ actions (snd (testApi env h)) = [Invoke api_request reply].
Proof. exact (wp_elim _ _ _ (testApi_footprint h)). Qed.

(** *** What the verification touches *)

Lemma verifyData_footprint h :
  exists reply, actions (snd (verifyData env h)) = [Scan verify_params reply].
Proof.
  rewrite verifyData_run.
  destruct (dynamodb_scan env verify_params _) as [e|out]; [eexists; reflexivity|].
  destruct (Items out) as [[|first others]|]; eexists; cbn [snd]; try reflexivity.
  unfold verify_report. destruct (filter _ requiredFields); reflexivity.
Qed.

End Steps.

Section Results.

Variable env : Env.

(** X7.  [uploadTestFile] returns [true] exactly when it put one object and
    the put succeeded; what it puts has the fixed bucket, key and content
    type and, as body, the content [readFileSync] returned for [TEST_FILE]
    in the same call; it puts at most one object; it throws exactly when
    [readFileSync] throws, and it never ends the process. *)
Theorem uploadTestFile_puts_what_it_read (h : History) :
  let c := fst (uploadTestFile env h) in
  let t := snd (uploadTestFile env h) in
  (c = Normal true <-> exists p, puts t = [(p, inr tt)])
  /\ (forall p r, In (p, r) (puts t) ->
        exists fileContent,
          reads t = [(TEST_FILE env, inr fileContent)]
          /\ p = upload_params fileContent)
  /\ (List.length (puts t) <= 1)%nat
  /\ (forall e, c = Throw e <-> reads t = [(TEST_FILE env, inl e)])
  /\ (forall code, c <> Exit code).
Proof.
  cbv zeta.
  assert (G : forall c t,
            uploadTestFile env h = (c, t) ->
            (exists u, c = Normal u /\ upload_shape env u t)
            \/ (exists e, c = Throw e
                          /\ t = [ConsoleLog blue InfoMark Uploading;
                                  ExistsSync (TEST_FILE env) true;
                                  ReadFileSync (TEST_FILE env) (inl e)])).
  { intros c t E.
    destruct (uploadTestFile_run env h) as [(u & t' & E' & S)|(e & E')];
      rewrite E' in E; injection E as <- <-; eauto. }
  destruct (uploadTestFile env h) as [c t]. cbn [fst snd].
  destruct (G c t eq_refl) as [(u & -> & S)|(e & -> & ->)]; [destruct S|]; cbn;
    (split; [|split; [|split; [|split]]]); try lia;
    solve [ split; [discriminate | intros [p Hp]; discriminate Hp]
          | split; eauto
          | intros p r []
          | intros p r [[= <- <-]|[]]; eauto
          | intros e'; split; intros H; discriminate H
          | intros e'; split; intros [= ->]; reflexivity
          | intros code; discriminate ].
Qed.

(** X8.  [verifyData] never throws: it announces itself, makes its scan, and
    returns a boolean.  A failed scan gives [false] and the error message;
    an answer without [Items] is treated like an empty one ([result.Items
    || []]): zero records are counted, the absence is warned about, and the
    result is [false]. *)
Theorem verifyData_without_records (h : History) :
  exists b reply rest,
    verifyData env h
    = (Normal b,
       ConsoleLog blue InfoMark VerifyingData :: Scan verify_params reply :: rest)
    /\ (forall e, reply = inl e ->
          b = false /\ rest = [ConsoleLog red CrossMark (VerifyError (message e))])
    /\ (forall out, reply = inr out ->
          Items out = None \/ Items out = Some [] ->
          b = false
          /\ rest = [ConsoleLog green CheckMark (TotalRecords 0);
                     ConsoleLog yellow WarnMark NoRecords]).
Proof.
  rewrite verifyData_run.
  destruct (dynamodb_scan env verify_params _) as [e|out].
  - eexists false, (inl e), _. split; [reflexivity|]. split.
    + intros ? [= <-]. split; reflexivity.
    + intros ? [=].
  - destruct (Items out) as [[|first others]|] eqn:Hitems.
    + eexists false, (inr out), _. split; [reflexivity|]. split.
      * intros ? [=].
      * intros ? [= <-] _. split; reflexivity.
    + eexists true, (inr out), _. split; [reflexivity|]. split.
      * intros ? [=].
      * intros ? [= <-] [H|H]; rewrite Hitems in H; discriminate H.
    + eexists false, (inr out), _. split; [reflexivity|]. split.
      * intros ? [=].
      * intros ? [= <-] _. split; reflexivity.
Qed.

(** X9.  When [verifyData] warns about missing fields, the scan succeeded
    with at least one record, and the fields named are, without repetition,
    exactly the required fields that are not properties of the first
    record; the list is not empty. *)
Theorem verifyData_reports_exactly_the_absent (h : History) (fields : list string) :
  In (ConsoleLog yellow WarnMark (MissingFields fields)) (snd (verifyData env h)) ->
  exists out first others,
    In (Scan verify_params (inr out)) (snd (verifyData env h))
    /\ Items out = Some (first :: others)
    /\ fields <> []
    /\ NoDup fields
    /\ (forall field,
          In field fields <->
          In field requiredFields /\ has_own field first = false).
Proof.
  rewrite verifyData_run.
  destruct (dynamodb_scan env verify_params _) as [e|out].
  - cbn. intros [H|[H|[H|[]]]]; discriminate H.
  - destruct (Items out) as [[|first others]|] eqn:Hitems.
    + cbn. intros [H|[H|[H|[H|[]]]]]; discriminate H.
    + cbn [snd]. intros H.
      assert (R : verify_report first = ConsoleLog yellow WarnMark (MissingFields fields)).
      { cbn in H. destruct H as [H|[H|[H|[H|[H|[H|[]]]]]]]; try discriminate H.
        exact H. }
      exists out, first, others. split; [cbn; auto|]. split; [exact Hitems|].
      unfold verify_report in R.
      destruct (filter _ requiredFields) as [|m ms] eqn:F; [discriminate R|].
      injection R as <-. rewrite <- F.
      split; [rewrite F; discriminate|].
      split.
      * apply NoDup_filter. unfold requiredFields.
        repeat (constructor; [cbn; intuition discriminate|]). constructor.
      * intros field. rewrite filter_In, negb_true_iff. reflexivity.
    + cbn. intros [H|[H|[H|[H|[]]]]]; discriminate H.
Qed.

End Results.

(** X6 at a sample environment, with a negative budget. *)
Lemma waitForProcessing_without_budget_witness :
  waitForProcessing env_ready (-3) 2000 []
  = (Normal false,
     [ConsoleLog blue InfoMark WaitingForLambda; ConsoleLog red CrossMark Timeout]).
Proof. apply waitForProcessing_without_budget. lia. Defined.

(** X9 at a sample environment: the first record of the table was created
    through the API and has no [source_file]. *)
Lemma verifyData_reports_exactly_the_absent_witness :
  exists out first others,
    In (Scan verify_params (inr out)) (snd (verifyData env_api_record []))
    /\ Items out = Some (first :: others)
    /\ ["source_file"] <> []
    /\ NoDup ["source_file"]
    /\ (forall field,
          In field ["source_file"] <->
          In field requiredFields /\ has_own field first = false).
Proof.
  apply (verifyData_reports_exactly_the_absent env_api_record [] ["source_file"]).
  vm_compute. tauto.
Defined.

(** Case analysis on the shape of the run of [env]. *)
Ltac by_shape env :=
  let S := fresh "S" in
  pose proof (run_classified env) as S;
  destruct (run env) as [c t]; cbn [fst snd] in *;
  destruct S as [e0|e0|e0|out e0|out uploaded t_upload processed t_poll
                   verified t_verify api t_api h_poll h_verify h_api
                   Hupload Hpoll Hverify Hapi].

Lemma summary_is_last t0 b d : last (t0 ++ summary b) d = ConsoleLogText Separator.
Proof.
  unfold summary.
  match goal with
  | |- last (t0 ++ [?x1; ?x2; ?x3; ?x4; ?x5]) _ = _ =>
      change (t0 ++ [x1; x2; x3; x4; x5]) with (t0 ++ ([x1; x2; x3; x4] ++ [x5]))
  end.
  rewrite app_assoc. apply last_last.
Qed.

Lemma summary_verdict t0 t1 b1 b2 :
  t0 ++ summary b1 = t1 ++ summary b2 -> b1 = b2.
Proof.
  intros E. apply (f_equal (fun l => firstn 2 (rev l))) in E.
  rewrite !rev_app_distr in E. cbn in E.
  destruct b1, b2; try reflexivity; discriminate E.
Qed.

(** Membership in a trace made of parts. *)
Ltac in_parts :=
  repeat first [rewrite in_app_iff | progress cbn [In app]]; tauto.

Section Run.

Variable env : Env.

(** The steps of a run that reaches the end of [main], and their
    results. *)
Lemma completed_run_facts uploaded t_upload processed t_poll verified t_verify
    api t_api h_poll h_verify h_api :
  upload_shape env uploaded t_upload ->
  waitForProcessing env 10 2000 h_poll = (Normal processed, t_poll) ->
  verifyData env h_verify = (Normal verified, t_verify) ->
  testApi env h_api = (Normal api, t_api) ->
  (scan_replies t_upload = [] /\ sleeps t_upload = []
   /\ invocations t_upload = [] /\ (List.length (puts t_upload) <= 1)%nat)
  /\ ((List.length (scan_replies t_poll) <= 10)%nat
      /\ puts t_poll = [] /\ invocations t_poll = []
      /\ scans t_poll = map (pair poll_params) (scan_replies t_poll)
      /\ sleeps t_poll
         = repeat 2000 (List.length (filter observed_empty (scan_replies t_poll))))
  /\ ((exists reply, scans t_verify = [(verify_params, reply)])
      /\ (List.length (scan_replies t_verify) <= 1)%nat /\ sleeps t_verify = []
      /\ puts t_verify = [] /\ invocations t_verify = [])
  /\ (scan_replies t_api = [] /\ sleeps t_api = []
      /\ puts t_api = [] /\ (List.length (invocations t_api) <= 1)%nat).
Proof.
  intros Hu Hp Hv Ha. split; [|split; [|split]].
  - destruct Hu; cbn; repeat split; lia.
  - destruct (waitForProcessing_run env 10 2000 h_poll) as (b & t & E & P).
    rewrite E in Hp. injection Hp as -> <-.
    destruct (poll_actions_put_nothing 2000 (actions t)
                (poll_trace_actions 10 2000 0 _ t P)) as (Pu & In).
    rewrite puts_actions in Pu. rewrite invocations_actions in In.
    change (puts (ConsoleLog blue InfoMark WaitingForLambda :: t)) with (puts t).
    change (invocations (ConsoleLog blue InfoMark WaitingForLambda :: t))
      with (invocations t).
    pose proof (poll_trace_scan_count _ _ _ _ _ P) as L.
    pose proof (poll_trace_sleeps _ _ _ _ _ P) as Sl.
    change (scan_replies (ConsoleLog blue InfoMark WaitingForLambda :: t))
      with (scan_replies t).
    change (sleeps (ConsoleLog blue InfoMark WaitingForLambda :: t)) with (sleeps t).
    change (scans (ConsoleLog blue InfoMark WaitingForLambda :: t)) with (scans t).
    split; [lia|]. split; [exact Pu|]. split; [exact In|].
    split; [|exact Sl]. eapply poll_trace_scans. exact P.
  - destruct (verifyData_footprint env h_verify) as (reply & A).
    rewrite Hv in A. cbn [snd] in A.
    rewrite <- scans_actions, <- scan_replies_actions, <- sleeps_actions,
      <- puts_actions, <- invocations_actions, A. cbn.
    split; [exists reply; reflexivity|]. repeat split. lia.
  - destruct (wp_elim _ _ _ (testApi_footprint env h_api)) as (b & reply & _ & A).
    rewrite Ha in A. cbn [snd] in A.
    rewrite <- scan_replies_actions, <- sleeps_actions, <- puts_actions,
      <- invocations_actions, A. cbn. repeat split. lia.
Qed.

(** X1.  [main] evaluates [!await checkBucket() || !await checkTable()] left
    to right: when [headBucket] fails, the table is never scanned; listing
    the buckets and the failed [headBucket] are all the run did besides
    printing. *)
Theorem absent_bucket_skips_table_check (e : JsError) :
  bucket_probe (snd (run env)) = Some (inl e) ->
  scan_replies (snd (run env)) = []
  /\ actions (snd (run env))
     = [ListBuckets (inr tt); HeadBucket BUCKET_NAME (inl e)].
Proof.
  by_shape env; intros H; cbn in H; try discriminate H.
  injection H as ->. split; reflexivity.
Qed.

(** X2.  A run of the script ends in one of two ways: [process.exit(1)], or
    the normal end of [main].  The summary (separator, verdict, separator)
    closes the output exactly of the runs that end normally. *)
Theorem run_exits_or_sums_up :
  (fst (run env) = Exit 1 \/ fst (run env) = Normal tt)
  /\ (fst (run env) = Normal tt <-> exists b t0, snd (run env) = t0 ++ summary b).
Proof.
  by_shape env.
  1-4: split; [left; reflexivity|]; split; [discriminate|];
    intros (b & t0 & E);
    apply (f_equal (fun l => last l (ConsoleLogText Separator))) in E;
    rewrite summary_is_last in E; cbn in E; discriminate E.
  split; [right; reflexivity|]. split; [|reflexivity].
  intros _. eexists _, _. rewrite !app_comm_cons, !app_assoc. reflexivity.
Qed.

(** X4.  Whatever the environment, a run scans the table at most twelve
    times (the check, ten polls, the verification), puts at most one object,
    and invokes the function at most once. *)
Theorem run_call_budget :
  (List.length (scan_replies (snd (run env))) <= 12)%nat
  /\ (List.length (puts (snd (run env))) <= 1)%nat
  /\ (List.length (invocations (snd (run env))) <= 1)%nat.
Proof.
  by_shape env; try (cbn; repeat split; lia).
  destruct (completed_run_facts _ _ _ _ _ _ _ _ _ _ _ Hupload Hpoll Hverify Hapi)
    as ((Us & _ & Ui & Up) & (Ps & Pp & Pi & _) & (_ & Vs & _ & Vp & Vi)
        & (As & _ & Ap & Ai)).
  rewrite !scan_replies_app, !puts_app, !invocations_app.
  change (Sleep 3000 :: ?l) with ([Sleep 3000] ++ l).
  change (Sleep 2000 :: ?l) with ([Sleep 2000] ++ l).
  rewrite !scan_replies_app, !puts_app, !invocations_app.
  rewrite Us, Ui, Pp, Pi, Vp, Vi, As, Ap.
  rewrite !length_app.
  destruct (uploaded && processed && verified && api); cbn; repeat split; lia.
Qed.

(** X5.  A run that exits with code 1 has not slept.  The scans of a run
    that ends normally are the check of the table, then at most ten polls,
    then the verification; such a run has slept 3000 ms before the polling,
    2000 ms once for each poll that found the table empty (its scan
    returned, without an item), and 2000 ms before the API test: with [k]
    the number of these polls, [5000 + 2000 * k] ms in all, at most 25
    seconds. *)
Theorem run_sleeps :
  (fst (run env) = Exit 1 /\ sleeps (snd (run env)) = [])
  \/ (fst (run env) = Normal tt
      /\ exists checked polls verified,
           scans (snd (run env))
           = (poll_params, inr checked)
             :: map (pair poll_params) polls ++ [(verify_params, verified)]
           /\ (List.length polls <= 10)%nat
           /\ let k := List.length (filter observed_empty polls) in
              (k <= 10)%nat
              /\ sleeps (snd (run env)) = 3000 :: repeat 2000 k ++ [2000]
              /\ total (sleeps (snd (run env))) = 5000 + 2000 * Z.of_nat k).
Proof.
  by_shape env; try (left; split; reflexivity).
  right. split; [reflexivity|].
  destruct (completed_run_facts _ _ _ _ _ _ _ _ _ _ _ Hupload Hpoll Hverify Hapi)
    as ((Usc & Usl & _) & (Plen & _ & _ & Psc & Psl)
        & ((verified_reply & Vsc) & _ & Vsl & _) & (Asc & Asl & _)).
  exists out, (scan_replies t_poll), verified_reply.
  assert (Uscans : scans t_upload = []).
  { destruct Hupload; reflexivity. }
  assert (Ascans : scans t_api = []).
  { destruct (wp_elim _ _ _ (testApi_footprint env h_api)) as (b & reply & _ & A).
    rewrite Hapi in A. cbn [snd] in A. rewrite <- scans_actions, A. reflexivity. }
  split; [|split; [exact Plen|]].
  { rewrite !scans_app.
    change (Sleep 3000 :: ?l) with ([Sleep 3000] ++ l).
    change (Sleep 2000 :: ?l) with ([Sleep 2000] ++ l).
    rewrite !scans_app. rewrite Uscans, Psc, Vsc, Ascans.
    destruct (uploaded && processed && verified && api); cbn;
      rewrite ?app_nil_r; reflexivity. }
  cbv zeta.
  set (k := List.length (filter observed_empty (scan_replies t_poll))) in *.
  assert (Hk : (k <= 10)%nat).
  { pose proof (filter_length_le observed_empty (scan_replies t_poll)).
    subst k. lia. }
  split; [exact Hk|].
  assert (E : sleeps (checks_passed out ++ t_upload ++ Sleep 3000 :: t_poll
                      ++ t_verify ++ Sleep 2000 :: t_api
                      ++ summary (uploaded && processed && verified && api))
              = 3000 :: repeat 2000 k ++ [2000]).
  { rewrite !sleeps_app.
    change (Sleep 3000 :: ?l) with ([Sleep 3000] ++ l).
    change (Sleep 2000 :: ?l) with ([Sleep 2000] ++ l).
    rewrite !sleeps_app. rewrite Usl, Psl, Vsl, Asl.
    destruct (uploaded && processed && verified && api); reflexivity. }
  split; [exact E|]. rewrite E. clear.
  cbn [total fold_right].
  induction k as [|k IH]; [reflexivity|].
  cbn [repeat app fold_right] in *. lia.
Qed.

(** X3.  The verdict that all tests passed is printed only when every step
    succeeded: the fixture was put in the bucket with the parameters of
    [uploadTestFile], the polling found processed data, the verification
    scan returned at least one record, and the invocation answered 201 with
    a body that parses to a value with properties. *)
Theorem all_passed_is_earned (t0 : list Event) :
  snd (run env) = t0 ++ summary true ->
  (exists fileContent,
     In (PutObject (upload_params fileContent) (inr tt)) (snd (run env)))
  /\ In (ConsoleLog green CheckMark ProcessedDataFound) (snd (run env))
  /\ (exists out first others,
        In (Scan verify_params (inr out)) (snd (run env))
        /\ Items out = Some (first :: others))
  /\ (exists reply id,
        In (Invoke api_request reply) (snd (run env))
        /\ created_with_body env reply id).
Proof.
  by_shape env; intros E.
  1-4: apply (f_equal (fun l => last l (ConsoleLogText Separator))) in E;
    rewrite summary_is_last in E; cbn in E; discriminate E.
  assert (B : uploaded && processed && verified && api = true).
  { rewrite !app_comm_cons, !app_assoc in E. eapply summary_verdict. exact E. }
  rewrite !andb_true_iff in B. destruct B as [[[-> ->] ->] ->].
  clear E. split; [|split; [|split]].
  - inversion Hupload; subst. exists fileContent.
    assert (L : In (PutObject (upload_params fileContent) (inr tt))
                  [ConsoleLog blue InfoMark Uploading;
                   ExistsSync (TEST_FILE env) true;
                   ReadFileSync (TEST_FILE env) (inr fileContent);
                   PutObject (upload_params fileContent) (inr tt);
                   ConsoleLog green CheckMark Uploaded]) by (cbn; tauto).
    revert L. generalize (PutObject (upload_params fileContent) (inr tt)).
    intros ev L. in_parts.
  - destruct (waitForProcessing_run env 10 2000 h_poll) as (b & t & E & P).
    rewrite E in Hpoll. injection Hpoll as -> <-.
    destruct (poll_trace_found_line 10 2000 0 t P) as [L Hscan].
    in_parts.
  - pose proof (verifyData_run env h_verify) as R. rewrite Hverify in R.
    destruct (dynamodb_scan env verify_params _) as [e|out'];
      [discriminate R|].
    destruct (Items out') as [[|first others]|] eqn:Hi; try discriminate R.
    injection R as ->. exists out', first, others. split; [|exact Hi].
    in_parts.
  - destruct (wp_elim _ _ _ (testApi_spec env h_api))
      as (b & reply & rest & Hc & Ht & (Hb & _)).
    rewrite Hapi in Hc, Ht. cbn [fst snd] in Hc, Ht. injection Hc as <-.
    destruct (proj1 Hb eq_refl) as [id C].
    exists reply, id. split; [|exact C].
    rewrite Ht. in_parts.
Qed.

End Run.

(** X1 at a sample environment: the emulator is up, the bucket is not
    there. *)
Lemma absent_bucket_skips_table_check_witness :
  scan_replies (snd (run env_no_bucket)) = []
  /\ actions (snd (run env_no_bucket))
     = [ListBuckets (inr tt); HeadBucket BUCKET_NAME (inl not_found)].
Proof.
  apply (absent_bucket_skips_table_check env_no_bucket not_found).
  vm_compute. reflexivity.
Defined.

(** X3 at a sample environment: everything is deployed and works. *)
Lemma all_passed_is_earned_witness :
  (exists fileContent,
     In (PutObject (upload_params fileContent) (inr tt)) (snd (run env_ready)))
  /\ In (ConsoleLog green CheckMark ProcessedDataFound) (snd (run env_ready))
  /\ (exists out first others,
        In (Scan verify_params (inr out)) (snd (run env_ready))
        /\ Items out = Some (first :: others))
  /\ (exists reply id,
        In (Invoke api_request reply) (snd (run env_ready))
        /\ created_with_body env_ready reply id).
Proof.
  apply (all_passed_is_earned env_ready
           (firstn (List.length (snd (run env_ready)) - 5) (snd (run env_ready)))).
  vm_compute. reflexivity.
Defined.

End PipelineMore.

(** ** More on the setup script *)

Module SetupMore.

Import Js Js.Notations Setup JsFacts SetupFacts SetupView.

Section Run.

Variable env : Env.

(** One step of symbolic execution of the setup script; the answer of each
    command is kept. *)
Ltac run_step :=
  lazymatch goal with
  | |- wp (bind _ _) _ _ => apply wp_bind
  | |- wp (ret _) _ _ => apply wp_ret
  | |- wp (emit _) _ _ => apply wp_emit
  | |- wp (process_exit _) _ _ => apply wp_process_exit
  | |- wp (console_log _) _ _ => unfold console_log
  | |- wp (console_error _) _ _ => unfold console_error
  | |- wp (setTimeout_noop _) _ _ => unfold setTimeout_noop
  | |- wp (checkFile _ _) _ _ =>
      apply wp_checkFile; destruct (fs_existsSync env _ _)
  | |- wp (execute _ _ _) _ _ =>
      apply wp_execute; intros ?d [?e|[]] ?Hanswer
  | |- wp (execSync _ _ _) _ _ =>
      apply wp_execSync; intros ?d [?e|[]] ?Hanswer
  | |- wp (if negb true then _ else _) _ _ => cbn [negb]
  | |- wp (if negb false then _ else _) _ _ => cbn [negb]
  | |- wp (if true then _ else _) _ _ => cbv iota
  | |- wp (if false then _ else _) _ _ => cbv iota
  end; cbv beta iota.

(** Every fact about the behaviour of the script is a fact about all the
    ways the script can go. *)
Lemma by_run (P : Behaviour -> Prop) :
  wp (script env) [] (fun c t => P (behaviour (c, t))) -> P (run env).
Proof.
  intros W. unfold run. rewrite (surjective_pairing (script env [])). exact W.
Qed.

Ltac all_runs :=
  apply by_run;
  unfold script, script_with, steps_before_wait, steps_after_wait, wait_step;
  repeat run_step.

(** X12.  The commands the setup script runs are a prefix of the sequence
    of the source (install, container check, emulator start, wait,
    deployment, basic test), in this order; every command but the last one
    run has succeeded; and when [package.json] is missing no command is run
    at all. *)
Theorem setup_runs_commands_in_order :
  (exists k, commands (seen (run env)) = firstn k command_sequence)
  /\ forallb (fun ok => ok) (removelast (outcomes (seen (run env)))) = true
  /\ (existsb package_json_missing (seen (run env)) = true ->
      commands (seen (run env)) = []).
Proof.
  pattern (run env). all_runs.
  all: (split; [|split; [reflexivity|]]);
    [ first [ exists 0%nat; reflexivity | exists 1%nat; reflexivity
            | exists 2%nat; reflexivity | exists 3%nat; reflexivity
            | exists 4%nat; reflexivity | exists 5%nat; reflexivity
            | exists 6%nat; reflexivity ]
    | cbn; first [reflexivity | discriminate] ].
Qed.

(** X13.  The closing message of the setup script is printed exactly in the
    runs that end with exit code 0. *)
Theorem setup_done_iff_exit_0 :
  existsb is_done (seen (run env)) = (exit_code (run env) =? 0).
Proof. pattern (run env). all_runs; reflexivity. Qed.

(** X14.  The basic test is run at most once, and only after
    [scripts/test-pipeline.js] was looked for and found. *)
Theorem basic_test_needs_its_script :
  (existsb is_basic_test (seen (run env)) = true ->
   existsb test_found (seen (run env)) = true)
  /\ (List.length (filter is_basic_test (seen (run env))) <= 1)%nat.
Proof.
  pattern (run env). all_runs; cbn; split; try lia; first [reflexivity | discriminate].
Qed.

(** X15.  If the wait command, when it succeeds, lasts the thirty seconds it
    is asked for, a setup that ends with exit code 0 has taken at least
    30000 ms. *)
Theorem successful_setup_takes_30_seconds :
  sleep_is_honest env ->
  exit_code (run env) = 0 ->
  30000 <= ended_at (run env).
Proof.
  intros Hsleep. pattern (run env). all_runs; cbn; intros H; try discriminate H.
  all: match goal with
       | Hs : child_process_execSync env "sleep 30" inherit _ = _ |- _ =>
           apply Hsleep in Hs
       end; lia.
Qed.

(** X21.  [execute] never throws and never ends the process: it runs its
    command once, with [stdio] inherited unless the options say otherwise,
    and returns [true] exactly when the command succeeded; a failure is
    printed with [console.error], with the message of the error, as the
    last thing [execute] does. *)
Theorem execute_swallows_failures (command : string) (options : option Stdio)
    (h : list Event) :
  exists ok duration answer,
    fst (execute env command options h) = Normal ok
    /\ commands (snd (execute env command options h)) = [command]
    /\ In (ExecSync command
             (match options with Some stdio => stdio | None => inherit end)
             duration answer)
          (snd (execute env command options h))
    /\ (ok = true <-> exists done, answer = inr done)
    /\ (forall e, answer = inl e ->
          exists t0, snd (execute env command options h)
                     = t0 ++ [ConsoleError (CommandError (message e))]).
Proof.
  rewrite execute_run. cbv zeta.
  destruct (child_process_execSync env command _ _) as [duration [e|done]];
    cbn [fst snd].
  - exists false, duration, (inl e). repeat split; try (cbn; tauto).
    + discriminate.
    + intros [done [=]].
    + intros e' [= <-]. eexists [_; _]. reflexivity.
  - exists true, duration, (inr done). repeat split; try (cbn; tauto).
    + eauto.
    + intros e' [=].
Qed.

End Run.

(** X15 at a sample environment: every command succeeds. *)
Lemma successful_setup_takes_30_seconds_witness :
  30000 <= ended_at (run env_all_good).
Proof.
  apply (successful_setup_takes_30_seconds env_all_good).
  - intros h duration E. cbn in E. injection E as <-. lia.
  - reflexivity.
Defined.

End SetupMore.

(** ** The notification helper *)

Module SnsFacts.

Import Js Js.Notations Sns JsFacts.

(** One step of symbolic execution of a function of the helper. *)
Ltac sns_step :=
  lazymatch goal with
  | |- wp (bind _ _) _ _ => apply wp_bind
  | |- wp (try_catch _ _) _ _ => apply wp_try_catch
  | |- wp (ret _) _ _ => apply wp_ret
  | |- wp (throw _) _ _ => unfold throw, wp; cbn [fst snd]
  | |- wp (emit _) _ _ => apply wp_emit
  | |- wp (call_throwing _ _) _ _ => apply wp_call_throwing
  | |- wp (lift _) _ _ => apply wp_lift
  | |- wp (console_log _) _ _ => unfold console_log
  | |- wp (console_error _ _) _ _ => unfold console_error
  | |- wp (if ?b then _ else _) _ _ => destruct b eqn:?
  | |- match ?x with _ => _ end => destruct x eqn:?
  end; cbv beta iota.

(** *** Configuration *)

Lemma or_default_not_empty penv name fallback :
  fallback <> "" -> or_default penv name fallback <> "".
Proof.
  intros Hf. unfold or_default. destruct (penv name) as [value|]; [|exact Hf].
  destruct (String.eqb_spec value ""); assumption.
Qed.

Lemma or_default_set penv name fallback value :
  penv name = Some value -> value <> "" -> or_default penv name fallback = value.
Proof.
  intros E Hv. unfold or_default. rewrite E.
  destruct (String.eqb_spec value ""); [contradiction|reflexivity].
Qed.

Lemma or_default_unset penv name fallback :
  penv name = None \/ penv name = Some "" -> or_default penv name fallback = fallback.
Proof. unfold or_default. intros [-> | ->]; reflexivity. Qed.

(** X20.  No field of [snsConfig] is ever the empty string: a variable of
    the process environment that is not set, or set to the empty string,
    gives way to the default ([process.env.X || default]); and two process
    environments that differ only by variables being empty or not set give
    the same configuration. *)
Theorem snsConfig_is_never_empty (penv : ProcessEnv) :
  endpoint (snsConfig penv) <> ""
  /\ region (snsConfig penv) <> ""
  /\ accessKeyId (snsConfig penv) <> ""
  /\ secretAccessKey (snsConfig penv) <> ""
  /\ (forall penv',
        (forall name, penv name = Some "" -> penv' name = None) ->
        (forall name, penv name <> Some "" -> penv' name = penv name) ->
        snsConfig penv' = snsConfig penv).
Proof.
  repeat split; try (apply or_default_not_empty; discriminate).
  intros penv' Hempty Hother.
  assert (E : forall name fallback,
            or_default penv' name fallback = or_default penv name fallback).
  { intros name fallback. unfold or_default.
    destruct (penv name) as [value|] eqn:Hp.
    - destruct (String.eqb_spec value "") as [->|Hne].
      + rewrite (Hempty name Hp). reflexivity.
      + rewrite Hother, Hp by (rewrite Hp; congruence).
        destruct (String.eqb_spec value ""); [contradiction|reflexivity].
    - rewrite Hother, Hp by (rewrite Hp; discriminate). reflexivity. }
  unfold snsConfig. rewrite !E. reflexivity.
Qed.

(** *** Keys and their order *)

Lemma to_uint_not_nil n : N.to_uint n <> Decimal.Nil.
Proof.
  intros E. pose proof (DecimalN.Unsigned.of_to n) as H. rewrite E in H.
  cbn in H. subst n. discriminate E.
Qed.

Lemma array_index_index_key n :
  array_index (index_key n) = if (n <? 4294967295)%N then Some n else None.
Proof.
  unfold array_index, index_key.
  rewrite NilZero.usu by apply to_uint_not_nil.
  cbv zeta. rewrite DecimalN.Unsigned.of_to, String.eqb_refl. reflexivity.
Qed.

Lemma array_index_Some key n : array_index key = Some n -> key = index_key n.
Proof.
  unfold array_index. destruct (NilZero.uint_of_string key) as [d|]; [|discriminate].
  cbv zeta. destruct (String.eqb_spec (index_key (N.of_uint d)) key) as [E|];
    [|discriminate].
  destruct (N.of_uint d <? 4294967295)%N; [|discriminate].
  cbn. intros [= <-]. symmetry. exact E.
Qed.

Lemma index_key_inj n m : index_key n = index_key m -> n = m.
Proof.
  intros E. apply (f_equal NilZero.uint_of_string) in E. unfold index_key in E.
  rewrite !NilZero.usu in E by apply to_uint_not_nil.
  injection E as E. apply (f_equal N.of_uint) in E.
  rewrite !DecimalN.Unsigned.of_to in E. exact E.
Qed.

Lemma before_asym a b : before a b = true -> before b a = false.
Proof.
  unfold before. destruct (array_index a) as [n|], (array_index b) as [m|];
    try discriminate; try reflexivity.
  rewrite N.ltb_lt, N.ltb_ge. lia.
Qed.

Lemma before_irrefl a : before a a = false.
Proof.
  unfold before. destruct (array_index a) as [n|]; [|reflexivity].
  apply N.ltb_irrefl.
Qed.

(** A key that is not to come before [k] is not to come before a key that
    is itself to come before [k]. *)
Lemma before_carried key k q :
  before key k = true -> before q k = false -> before q key = false.
Proof.
  unfold before.
  destruct (array_index key) as [n|], (array_index k) as [m|],
    (array_index q) as [o|]; try discriminate; try reflexivity.
  rewrite N.ltb_lt, !N.ltb_ge. lia.
Qed.

Lemma enumerated_NoDup keys : enumerated keys -> NoDup keys.
Proof.
  unfold enumerated. induction 1 as [|k keys _ IH Hall]; constructor; [|exact IH].
  intros Hin. rewrite Forall_forall in Hall. destruct (Hall k Hin) as [Hne _].
  apply Hne. reflexivity.
Qed.

Lemma enumerated_earlier l1 k l2 :
  enumerated (l1 ++ k :: l2) ->
  Forall (fun a => a <> k /\ before k a = false) l1.
Proof.
  unfold enumerated. induction l1 as [|a l1 IH]; cbn; intros H; [constructor|].
  apply StronglySorted_inv in H. destruct H as [H Hall].
  constructor; [|exact (IH H)].
  rewrite Forall_forall in Hall. apply Hall. apply in_or_app. right. left.
  reflexivity.
Qed.

Lemma enumerated_remove l1 k l2 :
  enumerated (l1 ++ k :: l2) -> enumerated (l1 ++ l2).
Proof.
  unfold enumerated. induction l1 as [|a l1 IH]; cbn; intros H.
  - apply StronglySorted_inv in H. exact (proj1 H).
  - apply StronglySorted_inv in H. destruct H as [H Hall].
    constructor; [exact (IH H)|].
    rewrite Forall_forall in *. intros x Hx. apply Hall.
    apply in_app_or in Hx. apply in_or_app. destruct Hx; [left|right; right];
      assumption.
Qed.

(** *** Property lists *)

Lemma lookup_is_lookup_prop key props : lookup key props = lookup_prop key props.
Proof.
  induction props as [|[k v] props IH]; cbn; [reflexivity|].
  rewrite IH. reflexivity.
Qed.

Lemma has_key_In {V} key (props : list (string * V)) :
  has_key key props = true <-> In key (map fst props).
Proof.
  unfold has_key. induction props as [|[k x] props IH]; cbn.
  - split; [discriminate|intros []].
  - destruct (String.eqb_spec k key) as [->|Hk].
    + split; auto.
    + rewrite IH. split; [auto|intros [?|?]; [contradiction|assumption]].
Qed.

Lemma has_key_false {V} key (props : list (string * V)) :
  ~ In key (map fst props) -> has_key key props = false.
Proof.
  intros Hn. destruct (has_key key props) eqn:E; [|reflexivity].
  apply has_key_In in E. contradiction.
Qed.

Lemma lookup_In {V} key (v : V) props : lookup key props = Some v -> In (key, v) props.
Proof.
  induction props as [|[k x] props IH]; cbn; [discriminate|].
  destruct (String.eqb_spec k key) as [->|Hk].
  - intros [= ->]. left. reflexivity.
  - intros H. right. exact (IH H).
Qed.

Lemma keys_insert_ordered {V} key (v : V) props x :
  In x (map fst (insert_ordered key v props)) <-> x = key \/ In x (map fst props).
Proof.
  induction props as [|[k y] props IH]; cbn.
  - split; [intros [<-|[]]; auto|intros [->|[]]; auto].
  - destruct (before key k); cbn; [|rewrite IH]; intuition congruence.
Qed.

Lemma lookup_insert_ordered {V} key (v : V) props key0 :
  lookup key props = None ->
  lookup key0 (insert_ordered key v props)
  = if String.eqb key key0 then Some v else lookup key0 props.
Proof.
  induction props as [|[k y] props IH]; cbn; intros Hn; [reflexivity|].
  destruct (String.eqb_spec k key) as [->|Hk]; [discriminate|].
  destruct (before key k); cbn.
  - reflexivity.
  - rewrite (IH Hn).
    destruct (String.eqb_spec k key0) as [->|Hk0]; [|reflexivity].
    destruct (String.eqb_spec key key0); [congruence|reflexivity].
Qed.

(** A key that is to come before none of the keys there comes last. *)
Lemma insert_ordered_last {V} key (v : V) props :
  Forall (fun k => before key k = false) (map fst props) ->
  insert_ordered key v props = props ++ [(key, v)].
Proof.
  induction props as [|[k y] props IH]; cbn; intros H; [reflexivity|].
  inversion H as [|? ? Hk Hrest]; subst. rewrite Hk, (IH Hrest). reflexivity.
Qed.

(** Creating a new property keeps the enumeration in order. *)
Lemma insert_ordered_enumerated {V} key (v : V) props :
  ~ In key (map fst props) ->
  enumerated (map fst props) ->
  enumerated (map fst (insert_ordered key v props)).
Proof.
  unfold enumerated.
  induction props as [|[k y] props IH]; cbn [map fst insert_ordered]; intros Hn H.
  - constructor; constructor.
  - apply StronglySorted_inv in H. destruct H as [H Hall].
    destruct (before key k) eqn:Hb; cbn [map fst].
    + constructor; [constructor; assumption|].
      constructor.
      * split; [intros ->; apply Hn; left; reflexivity|].
        apply before_asym. exact Hb.
      * rewrite Forall_forall in *. intros q Hq. destruct (Hall q Hq) as [Hne Hq'].
        split; [intros ->; apply Hn; right; exact Hq|].
        eapply before_carried; eassumption.
    + constructor.
      * apply IH; [intros Hin; apply Hn; right; exact Hin|exact H].
      * rewrite Forall_forall in *. intros q Hq.
        apply keys_insert_ordered in Hq. destruct Hq as [->|Hq]; [|auto].
        split; [intros ->; apply Hn; left; reflexivity|exact Hb].
Qed.

Lemma properties_fold_enumerated (props : list (string * JSValue)) :
  forall acc : list (string * JSValue),
  enumerated (map fst acc) ->
  enumerated
    (map fst
       (fold_left
          (fun acc kv =>
             if has_key (fst kv) acc then acc
             else insert_ordered (fst kv) (snd kv) acc)
          props acc)).
Proof.
  induction props as [|[k v] props IH]; cbn [fold_left fst snd]; intros acc H.
  - exact H.
  - apply IH. destruct (has_key k acc) eqn:Hk; [exact H|].
    apply insert_ordered_enumerated; [|exact H].
    intros Hin. apply has_key_In in Hin. congruence.
Qed.

Lemma properties_fold_lookup key (props : list (string * JSValue)) :
  forall acc : list (string * JSValue),
  lookup key
    (fold_left
       (fun acc kv =>
          if has_key (fst kv) acc then acc
          else insert_ordered (fst kv) (snd kv) acc)
       props acc)
  = match lookup key acc with
    | Some v => Some v
    | None => lookup key props
    end.
Proof.
  induction props as [|[k v] props IH]; cbn [fold_left fst snd lookup]; intros acc.
  - destruct (lookup key acc); reflexivity.
  - rewrite IH. unfold has_key. destruct (lookup k acc) as [x|] eqn:Hk.
    + destruct (lookup key acc) eqn:Hkey; [reflexivity|].
      destruct (String.eqb_spec k key) as [->|]; [congruence|reflexivity].
    + rewrite lookup_insert_ordered by exact Hk.
      destruct (String.eqb_spec k key) as [->|Hne].
      * rewrite Hk. reflexivity.
      * reflexivity.
Qed.

(** The own properties of an object are those [lookup_prop] reads. *)
Lemma properties_of_lookup key props :
  lookup key (properties_of props) = lookup_prop key props.
Proof.
  unfold properties_of. rewrite properties_fold_lookup. cbn.
  apply lookup_is_lookup_prop.
Qed.

Lemma properties_of_enumerated props : enumerated (map fst (properties_of props)).
Proof. apply properties_fold_enumerated. constructor. Qed.

Lemma indexed_keys elems : forall i key,
  In key (map fst (indexed i elems)) -> exists j, (i <= j)%N /\ key = index_key j.
Proof.
  induction elems as [|x elems IH]; cbn; intros i key H; [destruct H|].
  destruct H as [<-|H].
  - exists i. split; [lia|reflexivity].
  - destruct (IH _ _ H) as (j & Hj & ->). exists j. split; [lia|reflexivity].
Qed.

Lemma indexed_enumerated elems : forall i, enumerated (map fst (indexed i elems)).
Proof.
  unfold enumerated.
  induction elems as [|x elems IH]; cbn; intros i; constructor; [apply IH|].
  rewrite Forall_forall. intros key Hin.
  destruct (indexed_keys _ _ _ Hin) as (j & Hj & ->).
  split.
  - intros E. apply index_key_inj in E. lia.
  - unfold before. rewrite !array_index_index_key.
    destruct (N.ltb_spec j 4294967295); [|reflexivity].
    destruct (N.ltb_spec i 4294967295); [|lia].
    apply N.ltb_ge. lia.
Qed.

Lemma own_properties_enumerated v props :
  own_properties v = inr props -> enumerated (map fst props).
Proof.
  destruct v; cbn; intros [= <-]; try constructor.
  - apply indexed_enumerated.
  - apply indexed_enumerated.
  - apply properties_of_enumerated.
Qed.

(** *** The attributes *)

Section Attributes.

Variable env : Env.

Lemma String_of_inr v text :
  String_of env v = inr text -> ToString_throws v = false /\ text = String_ env v.
Proof.
  unfold String_of. destruct (ToString_throws v); [discriminate|].
  intros [= <-]. split; reflexivity.
Qed.

Lemma String_of_inl v e :
  String_of env v = inl e -> ToString_throws v = true.
Proof.
  unfold String_of. destruct (ToString_throws v); [reflexivity|discriminate].
Qed.

(** A loop that ends has converted every value and assigned every
    attribute. *)
Lemma add_attributes_inr props : forall obj custom,
  add_attributes env props obj = inr custom ->
  (forall key value, In (key, value) props -> ToString_throws value = false)
  /\ custom
     = fold_left (fun acc kv => assign (fst kv) (attribute_of env (snd kv)) acc)
         props obj.
Proof.
  induction props as [|[k v] props IH]; cbn [add_attributes fold_left fst snd];
    intros obj custom H.
  - injection H as <-. split; [intros ? ? []|reflexivity].
  - destruct (String_of env v) as [e|text] eqn:Hs; [discriminate|].
    apply String_of_inr in Hs. destruct Hs as [Hv ->].
    destruct (IH _ _ H) as [Hall ->]. split; [|reflexivity].
    intros key value [[= <- <-]|Hin]; [exact Hv|eauto].
Qed.

(** A loop that throws has met a value that cannot be converted. *)
Lemma add_attributes_inl props : forall obj e,
  add_attributes env props obj = inl e ->
  exists key value, In (key, value) props /\ ToString_throws value = true.
Proof.
  induction props as [|[k v] props IH]; cbn [add_attributes]; intros obj e H;
    [discriminate|].
  destruct (String_of env v) as [e'|text] eqn:Hs.
  - exists k, v. split; [left; reflexivity|]. eapply String_of_inl. exact Hs.
  - destruct (IH _ _ H) as (key & value & Hin & Hv).
    exists key, value. split; [right; exact Hin|exact Hv].
Qed.

(** Assigning the attributes in the order of the enumeration of their keys
    creates the properties in that order, the key [__proto__] apart. *)
Lemma fold_assign props : forall obj,
  enumerated (map fst (own obj) ++ map fst props) ->
  let result :=
    fold_left (fun acc kv => assign (fst kv) (attribute_of env (snd kv)) acc)
      props obj in
  own result
  = own obj
    ++ map (fun kv => (fst kv, attribute_of env (snd kv)))
         (filter makes_a_property props)
  /\ prototype result
     = match lookup "__proto__" props with
       | Some v => Some (attribute_of env v)
       | None => prototype obj
       end.
Proof.
  induction props as [|[k v] props IH]; intros obj H; cbn [fold_left fst snd].
  - cbn. rewrite app_nil_r. split; reflexivity.
  - cbn [map fst] in H.
    pose proof (enumerated_earlier _ _ _ H) as Hearlier.
    pose proof (enumerated_NoDup _ H) as Hnodup.
    cbn [lookup filter]. unfold makes_a_property at 1. cbn [fst].
    destruct (String.eqb_spec k "__proto__") as [->|Hk]; cbn [negb].
    + replace (assign "__proto__" (attribute_of env v) obj)
        with {| own := own obj; prototype := Some (attribute_of env v) |}
        by reflexivity.
      destruct (IH {| own := own obj; prototype := Some (attribute_of env v) |})
        as [Hown Hproto].
      { cbn [own]. eapply enumerated_remove. exact H. }
      cbn [own prototype] in Hown, Hproto.
      split; [exact Hown|].
      rewrite Hproto.
      destruct (lookup "__proto__" props) as [v'|] eqn:Hl; [|reflexivity].
      exfalso. apply NoDup_remove_2 in Hnodup. apply Hnodup.
      apply in_or_app. right. apply lookup_In in Hl.
      apply in_map_iff. exists ("__proto__", v'). split; [reflexivity|exact Hl].
    + assert (Hset : assign k (attribute_of env v) obj
                     = {| own := own obj ++ [(k, attribute_of env v)];
                          prototype := prototype obj |}).
      { unfold assign. destruct (String.eqb_spec k "__proto__"); [contradiction|].
        f_equal. unfold set_property. rewrite has_key_false.
        - apply insert_ordered_last. rewrite Forall_forall in *.
          intros q Hq. exact (proj2 (Hearlier q Hq)).
        - intros Hin. rewrite Forall_forall in Hearlier.
          destruct (Hearlier k Hin) as [Hne _]. apply Hne. reflexivity. }
      rewrite Hset.
      destruct (IH {| own := own obj ++ [(k, attribute_of env v)];
                      prototype := prototype obj |}) as [Hown Hproto].
      { cbn [own]. rewrite map_app. cbn [map fst]. rewrite <- app_assoc. exact H. }
      cbn [own prototype] in Hown, Hproto.
      split.
      * rewrite Hown. rewrite <- app_assoc. reflexivity.
      * exact Hproto.
Qed.

(** The attributes [publishMessage] sends for the own properties [props]
    of its argument. *)
Lemma custom_attributes attributes props custom :
  own_properties attributes = inr props ->
  add_attributes env props empty_object = inr custom ->
  own custom
  = map (fun kv => (fst kv, attribute_of env (snd kv)))
      (filter makes_a_property props)
  /\ prototype custom
     = option_map (attribute_of env) (lookup "__proto__" props)
  /\ NoDup (map fst (own custom))
  /\ (forall key value, In (key, value) props -> ToString_throws value = false).
Proof.
  intros Hprops Hadd.
  apply own_properties_enumerated in Hprops.
  destruct (add_attributes_inr _ _ _ Hadd) as [Hall ->].
  destruct (fold_assign props empty_object) as [Hown Hproto]; [exact Hprops|].
  cbv zeta in Hown, Hproto. cbn [own prototype empty_object app] in Hown, Hproto.
  split; [exact Hown|]. split.
  - rewrite Hproto. destruct (lookup "__proto__" props); reflexivity.
  - split; [|exact Hall].
    rewrite Hown, map_map. cbn [fst].
    apply enumerated_NoDup in Hprops.
    clear - Hprops. induction props as [|[k v] props IH]; cbn; [constructor|].
    inversion Hprops as [|? ? Hk Hrest]; subst.
    destruct (makes_a_property (k, v)); cbn; [|exact (IH Hrest)].
    constructor; [|exact (IH Hrest)].
    intros Hin. apply Hk. apply in_map_iff in Hin.
    destruct Hin as ([k' v'] & E & Hin). cbn in E. subst k'.
    apply filter_In in Hin. apply in_map_iff. exists (k, v').
    split; [reflexivity|exact (proj1 Hin)].
Qed.

(** *** The runs of the four functions *)

Lemma publishMessage_run topicArn message subject attributes h :
  publish_shape env topicArn message subject attributes
    (fst (publishMessage env topicArn message subject attributes h))
    (snd (publishMessage env topicArn message subject attributes h)).
Proof.
  apply wp_elim with (Q := publish_shape env topicArn message subject attributes).
  unfold publishMessage. cbv zeta.
  repeat sns_step; cbn [app];
    repeat match goal with
           | H : interpolated _ = inr _ |- _ =>
               apply interpolated_inr in H; destruct H as [-> ?]
           end.
  all: try solve [ apply publish_not_prepared; unfold thrown_before_try; eauto 6 ].
  all: try solve [ apply publish_subject_not_printed; assumption ].
  all: repeat match goal with
              | H : interpolated _ = inl _ |- _ =>
                  apply interpolated_inl in H; destruct H as [? ->]
              end.
  all: eapply publish_answered;
    try eassumption; try solve [left; eauto | right; eauto];
    unfold printed_prop, interpolated in *;
    repeat match goal with
           | H : get_prop _ _ = _ |- _ => rewrite H
           | H : ToString_throws _ = _ |- _ => rewrite H in *
           end;
    try solve [split; congruence].
Qed.

Lemma publish_in_shape topicArn message subject attributes c t p reply :
  publish_shape env topicArn message subject attributes c t ->
  In (Publish p reply) t ->
  exists text props custom last,
    p = {| TopicArn := topicArn;
           Message := text;
           Subject := subject_or_default subject;
           MessageAttributes := custom |}
    /\ t = [ConsoleLog (Publishing (subject_or_default subject));
            Publish p reply; last]
    /\ ((typeof_is_object message = true
         /\ exists s, JSON_stringify env message = inr s /\ text = JStr s)
        \/ (typeof_is_object message = false /\ text = message))
    /\ own_properties (attributes_or_default attributes) = inr props
    /\ add_attributes env props empty_object = inr custom
    /\ match reply with
       | inl e => c = Throw e /\ last = ConsoleError PublishFailed e
       | inr result =>
           match printed_prop result "MessageId" with
           | inl e => c = Throw e /\ last = ConsoleError PublishFailed e
           | inr messageId =>
               c = Normal result /\ last = ConsoleLog (Published messageId)
           end
       end.
Proof.
  intros Hshape Hin.
  destruct Hshape as [e Hb|e Hs|text props custom reply' c last Htext Hprops Hadd
                                 Hsubject Hreply].
  - destruct Hin.
  - destruct Hin as [Hin|[]]. discriminate Hin.
  - assert (E : Publish p reply
                = Publish {| TopicArn := topicArn;
                             Message := text;
                             Subject := subject_or_default subject;
                             MessageAttributes := custom |} reply').
    { destruct Hin as [Hin|[Hin|[Hin|[]]]]; [discriminate|congruence|].
      destruct reply' as [e|result]; [destruct Hreply as [_ ->]; discriminate|].
      destruct (printed_prop result "MessageId"); destruct Hreply as [_ ->];
        discriminate. }
    inversion E; subst p reply'. exists text, props, custom, last.
    repeat split; assumption.
Qed.

(** X16.  The parameters [publishMessage] sends carry the topic, the
    subject (['Notification'] when omitted or [undefined]) and, as own
    properties of [MessageAttributes], one attribute per own enumerable key
    of [attributes] other than [__proto__] (none when [attributes] is
    omitted), in the order in which [Object.keys] enumerates the keys: the
    attribute of a key has data type ['String'] and as value [String] of
    the value of the key, whose conversion did not throw; no key is
    repeated.  An own key [__proto__] makes no attribute: its attribute
    becomes the prototype of [MessageAttributes].  For an object, the own
    properties are those a property read finds. *)
Theorem publishMessage_attributes topicArn message subject attributes h p reply :
  In (Publish p reply)
     (snd (publishMessage env topicArn message subject attributes h)) ->
  exists props,
    own_properties (attributes_or_default attributes) = inr props
    /\ enumerated (map fst props)
    /\ (forall props0, attributes = JObj props0 ->
        forall key, lookup key props = lookup_prop key props0)
    /\ (forall key value, In (key, value) props -> ToString_throws value = false)
    /\ TopicArn p = topicArn
    /\ Subject p = subject_or_default subject
    /\ own (MessageAttributes p)
       = map (fun kv => (fst kv, attribute_of env (snd kv)))
           (filter makes_a_property props)
    /\ prototype (MessageAttributes p)
       = option_map (attribute_of env) (lookup "__proto__" props)
    /\ NoDup (map fst (own (MessageAttributes p))).
Proof.
  intros Hin.
  destruct (publish_in_shape _ _ _ _ _ _ _ _
              (publishMessage_run topicArn message subject attributes h) Hin)
    as (text & props & custom & last & -> & _ & _ & Hprops & Hadd & _).
  destruct (custom_attributes _ _ _ Hprops Hadd) as (Hown & Hproto & Hnodup & Hall).
  exists props. cbn [TopicArn Subject MessageAttributes].
  split; [exact Hprops|]. split; [eapply own_properties_enumerated; exact Hprops|].
  split.
  { intros props0 -> key. cbn in Hprops. injection Hprops as <-.
    apply properties_of_lookup. }
  repeat split; assumption.
Qed.

(** X17.  The message [publishMessage] sends is the argument itself unless
    [typeof message === 'object'] (an object, an array, or [null]); then it
    is the [JSON.stringify] of the argument.  If [JSON.stringify] throws,
    the exception leaves [publishMessage] before the [try]: nothing is
    printed and nothing is published. *)
Theorem publishMessage_text topicArn message subject attributes h :
  let run := publishMessage env topicArn message subject attributes h in
  (forall p reply, In (Publish p reply) (snd run) ->
     if typeof_is_object message
     then exists s, JSON_stringify env message = inr s /\ Message p = JStr s
     else Message p = message)
  /\ (forall e, typeof_is_object message = true ->
        JSON_stringify env message = inl e -> run = (Throw e, [])).
Proof.
  intros run. split.
  - intros p reply Hin.
    destruct (publish_in_shape _ _ _ _ _ _ _ _
                (publishMessage_run topicArn message subject attributes h) Hin)
      as (text & props & custom & last & -> & _
          & [(Hty & s & Hs & ->)|(Hty & ->)] & _);
      rewrite Hty; cbn [Message]; eauto.
  - intros e Hty Hs. subst run.
    unfold publishMessage, bind, lift. rewrite Hty, Hs. reflexivity.
Qed.

(** X18.  [publishMessage] never ends the process and calls the client at
    most once.  A rejected call is rethrown unchanged after being printed
    with [console.error]; an answer whose [MessageId] cannot be read (a
    [null] or [undefined] result) or cannot be converted to a string for
    the line that reports it does the same with the [TypeError]; any other
    answer is returned as it is after its [MessageId] was printed.  An
    exception is either printed with [console.error] as the last thing
    done, or thrown before the [try], by [JSON.stringify(message)],
    [Object.keys(attributes)] or [String(attributes[key])]; these leave
    [publishMessage] with nothing printed and nothing published. *)
Theorem publishMessage_logs_and_rethrows topicArn message subject attributes h :
  let c := fst (publishMessage env topicArn message subject attributes h) in
  let t := snd (publishMessage env topicArn message subject attributes h) in
  (forall code, c <> Exit code)
  /\ (List.length (calls t) <= 1)%nat
  /\ (forall p e, In (Publish p (inl e)) t ->
        c = Throw e /\ exists t0, t = t0 ++ [ConsoleError PublishFailed e])
  /\ (forall p result, In (Publish p (inr result)) t ->
        match printed_prop result "MessageId" with
        | inr messageId =>
            c = Normal result
            /\ exists t0, t = t0 ++ [ConsoleLog (Published messageId)]
        | inl e =>
            c = Throw e /\ exists t0, t = t0 ++ [ConsoleError PublishFailed e]
        end)
  /\ (forall result, c = Normal result ->
        exists p, calls t = [Publish p (inr result)])
  /\ (forall e, c = Throw e ->
        (t = [] /\ thrown_before_try env message attributes e)
        \/ exists t0, t = t0 ++ [ConsoleError PublishFailed e])
  /\ (forall e, thrown_before_try env message attributes e -> t = []).
Proof.
  intros c t.
  pose proof (publishMessage_run topicArn message subject attributes h) as Hshape.
  fold c t in Hshape.
  split; [|split; [|split; [|split; [|split; [|split]]]]].
  - intros code Hc.
    destruct Hshape as [e Hb|e Hs|text props custom reply c last _ _ _ _ Hreply];
      try discriminate.
    destruct reply as [e|result]; [destruct Hreply as [-> _]; discriminate|].
    destruct (printed_prop result "MessageId"); destruct Hreply as [-> _];
      discriminate.
  - destruct Hshape as [e Hb|e Hs|text props custom reply c last _ _ _ _ Hreply];
      cbn; try lia.
    destruct reply as [e|result]; [destruct Hreply as [_ ->]; cbn; lia|].
    destruct (printed_prop result "MessageId"); destruct Hreply as [_ ->]; cbn; lia.
  - intros p e Hin.
    destruct (publish_in_shape _ _ _ _ _ _ _ _ Hshape Hin)
      as (text & props & custom & last & _ & Ht & _ & _ & _ & Hc & ->).
    split; [exact Hc|]. rewrite Ht. eexists [_; _]. reflexivity.
  - intros p result Hin.
    destruct (publish_in_shape _ _ _ _ _ _ _ _ Hshape Hin)
      as (text & props & custom & last & _ & Ht & _ & _ & _ & Hreply).
    destruct (printed_prop result "MessageId"); destruct Hreply as [Hc ->];
      (split; [exact Hc|rewrite Ht; eexists [_; _]; reflexivity]).
  - intros result Hc.
    destruct Hshape as [e Hb|e Hs|text props custom reply c last _ _ _ _ Hreply];
      try discriminate.
    destruct reply as [e|result']; [destruct Hreply as [-> _]; discriminate|].
    destruct (printed_prop result' "MessageId"); destruct Hreply as [-> ->];
      [discriminate|].
    injection Hc as ->. eexists. reflexivity.
  - intros e Hc.
    destruct Hshape as [e' Hb|e' Hs|text props custom reply c last _ _ _ _ Hreply].
    + left. injection Hc as ->. split; [reflexivity|exact Hb].
    + right. injection Hc as ->. exists []. reflexivity.
    + right. destruct reply as [e'|result].
      * destruct Hreply as [-> ->]. injection Hc as ->. eexists [_; _]. reflexivity.
      * destruct (printed_prop result "MessageId"); destruct Hreply as [-> ->];
          [|discriminate].
        injection Hc as ->. eexists [_; _]. reflexivity.
  - intros e Hb. subst t. unfold publishMessage, bind, lift. cbv zeta.
    destruct Hb as [[Hty Hs]|[Hk|(props & Hk & Ha)]].
    + rewrite Hty, Hs. reflexivity.
    + destruct (typeof_is_object message);
        [destruct (JSON_stringify env message)|]; cbn; try reflexivity;
        rewrite Hk; reflexivity.
    + destruct (typeof_is_object message);
        [destruct (JSON_stringify env message)|]; cbn; try reflexivity;
        rewrite Hk; cbn; rewrite Ha; reflexivity.
Qed.

Lemma printed_prop_inr result name v :
  printed_prop result name = inr v -> get_prop result name = inr v.
Proof.
  unfold printed_prop. destruct (get_prop result name) as [e|x]; [discriminate|].
  intros H. apply interpolated_inr in H. destruct H as [-> _]. reflexivity.
Qed.

Lemma wrappers_run h :
  (forall topicName,
     let reply := sns_createTopic env {| Name := topicName |} h in
     let c := completion_on (fun result => printed_prop result "TopicArn")
                (fun _ topicArn => topicArn) reply in
     createTopic env topicName h
     = (c,
        CreateTopic {| Name := topicName |} reply
        :: match c with
           | Normal topicArn => [ConsoleLog (TopicCreated topicArn)]
           | Throw e => [ConsoleError CreateTopicFailed e]
           | Exit _ => []
           end))
  /\ (forall topicArn protocol endpoint,
        let params := {| SubscribeTopicArn := topicArn;
                         Protocol := protocol; Endpoint := endpoint |} in
        let reply := sns_subscribe env params h in
        subscribe env topicArn protocol endpoint h
        = (completion_on (fun result => printed_prop result "SubscriptionArn")
             (fun result _ => result) reply,
           Subscribe params reply
           :: match completion_on
                      (fun result => printed_prop result "SubscriptionArn")
                      (fun _ arn => arn) reply with
              | Normal arn => [ConsoleLog (SubscriptionCreated arn)]
              | Throw e => [ConsoleError SubscribeFailed e]
              | Exit _ => []
              end))
  /\ (let reply := sns_listTopics env h in
      let c := completion_on (fun result => get_prop result "Topics")
                 (fun _ topics => topics) reply in
      listTopics env h
      = (c,
         ListTopics reply
         :: match c with
            | Throw e => [ConsoleError ListTopicsFailed e]
            | _ => []
            end)).
Proof.
  repeat split.
  - intros topicName reply c. subst reply c.
    unfold createTopic, bind, try_catch, call_throwing, Js.call, lift,
      console_log, console_error, emit, completion_on, printed_prop. cbn.
    destruct (sns_createTopic env _ h) as [e|result]; cbn; [reflexivity|].
    destruct (get_prop result "TopicArn") as [e|v]; cbn; [reflexivity|].
    destruct (interpolated v) as [e|x] eqn:Hi; cbn; [reflexivity|].
    apply interpolated_inr in Hi. destruct Hi as [-> _]. reflexivity.
  - intros topicArn protocol endpoint params reply. subst reply.
    unfold subscribe, bind, try_catch, call_throwing, Js.call, lift,
      console_log, console_error, emit, completion_on, printed_prop. cbn.
    fold params.
    destruct (sns_subscribe env params h) as [e|result]; cbn; [reflexivity|].
    destruct (get_prop result "SubscriptionArn") as [e|v]; cbn; [reflexivity|].
    destruct (interpolated v) as [e|x] eqn:Hi; reflexivity.
  - unfold listTopics, bind, try_catch, call_throwing, Js.call, lift,
      console_log, console_error, emit, completion_on. cbn.
    destruct (sns_listTopics env h) as [e|result]; cbn; [reflexivity|].
    destruct (get_prop result "Topics"); reflexivity.
Qed.

(** X19.  [createTopic], [subscribe] and [listTopics] call the client
    exactly once, with the parameters made of their arguments, and never
    end the process.  An error (a rejected call, a result whose property
    cannot be read, or, in [createTopic] and [subscribe], a property that
    cannot be converted to a string for the line that reports it) is
    printed with [console.error] as the last event and then rethrown; a run
    that returns has printed no error.  [createTopic] returns the
    [TopicArn] of the result, [subscribe] the result itself, [listTopics]
    its [Topics], and a successful [listTopics] prints nothing. *)
Theorem wrappers_log_and_rethrow h :
  (forall topicName,
     let c := fst (createTopic env topicName h) in
     let t := snd (createTopic env topicName h) in
     logged_and_rethrown CreateTopicFailed c t
     /\ exists reply,
          calls t = [CreateTopic {| Name := topicName |} reply]
          /\ c = completion_on (fun result => printed_prop result "TopicArn")
                   (fun _ topicArn => topicArn) reply)
  /\ (forall topicArn protocol endpoint,
        let c := fst (subscribe env topicArn protocol endpoint h) in
        let t := snd (subscribe env topicArn protocol endpoint h) in
        logged_and_rethrown SubscribeFailed c t
        /\ exists reply,
             calls t = [Subscribe {| SubscribeTopicArn := topicArn;
                                     Protocol := protocol;
                                     Endpoint := endpoint |} reply]
             /\ c = completion_on
                      (fun result => printed_prop result "SubscriptionArn")
                      (fun result _ => result) reply)
  /\ (let c := fst (listTopics env h) in
      let t := snd (listTopics env h) in
      logged_and_rethrown ListTopicsFailed c t
      /\ exists reply,
           calls t = [ListTopics reply]
           /\ c = completion_on (fun result => get_prop result "Topics")
                    (fun _ topics => topics) reply
           /\ (forall topics, c = Normal topics -> t = [ListTopics reply])).
Proof.
  destruct (wrappers_run h) as (Hcreate & Hsubscribe & Hlist).
  repeat split.
  - rewrite Hcreate. cbn [fst snd].
    destruct (completion_on _ _ _) as [v|e|code] eqn:Hc; cbn.
    + intros text e [Hin|[Hin|[]]]; discriminate.
    + eexists [_]. reflexivity.
    + unfold completion_on in Hc.
      destruct (sns_createTopic env _ h) as [e|result]; [discriminate|].
      destruct (printed_prop result "TopicArn"); discriminate.
  - rewrite Hcreate. cbn [fst snd]. eexists. split; [|reflexivity].
    destruct (completion_on _ _ _); reflexivity.
  - rewrite Hsubscribe. cbn [fst snd]. unfold completion_on.
    destruct (sns_subscribe env _ h) as [e|result].
    + eexists [_]. reflexivity.
    + destruct (printed_prop result "SubscriptionArn") as [e|arn].
      * eexists [_]. reflexivity.
      * intros text e [Hin|[Hin|[]]]; discriminate.
  - rewrite Hsubscribe. cbn [fst snd]. eexists. split; [|reflexivity].
    destruct (completion_on _ (fun _ arn => arn) _); reflexivity.
  - rewrite Hlist. cbn [fst snd]. unfold completion_on.
    destruct (sns_listTopics env h) as [e|result].
    + eexists [_]. reflexivity.
    + destruct (get_prop result "Topics") as [e|topics].
      * eexists [_]. reflexivity.
      * intros text e [Hin|[]]; discriminate.
  - rewrite Hlist. cbn [fst snd]. eexists. split; [|split; [reflexivity|]].
    + destruct (completion_on _ _ _); reflexivity.
    + intros topics ->. reflexivity.
Qed.

End Attributes.

(** X16 at a sample environment: a text published with three attributes and
    no subject; the key that is an array index comes first. *)
Lemma publishMessage_attributes_witness :
  let p :=
    {| TopicArn := "arn:aws:sns:us-east-1:000000000000:t";
       Message := JStr "done";
       Subject := JStr "Notification";
       MessageAttributes :=
         {| own := [("7", {| DataType := "String"; StringValue := "true" |});
                    ("origin", {| DataType := "String"; StringValue := "s3" |});
                    ("count", {| DataType := "String"; StringValue := "3" |})];
            prototype := None |} |} in
  exists props,
    own_properties (attributes_or_default sample_attributes) = inr props
    /\ enumerated (map fst props)
    /\ (forall props0, sample_attributes = JObj props0 ->
        forall key, lookup key props = lookup_prop key props0)
    /\ (forall key value, In (key, value) props -> ToString_throws value = false)
    /\ TopicArn p = "arn:aws:sns:us-east-1:000000000000:t"
    /\ Subject p = subject_or_default JUndefined
    /\ own (MessageAttributes p)
       = map (fun kv => (fst kv, attribute_of sample_env (snd kv)))
           (filter makes_a_property props)
    /\ prototype (MessageAttributes p)
       = option_map (attribute_of sample_env) (lookup "__proto__" props)
    /\ NoDup (map fst (own (MessageAttributes p))).
Proof.
  apply (publishMessage_attributes sample_env
           "arn:aws:sns:us-east-1:000000000000:t" (JStr "done") JUndefined
           sample_attributes []
           _ (inr (JObj [("MessageId", JStr "5f1c")]))).
  vm_compute. tauto.
Defined.

(** *** Sample runs *)

(** An own key [__proto__] of the attributes makes no attribute: its
    attribute becomes the prototype of [MessageAttributes]. *)
Lemma publishMessage_sample_proto :
  calls (snd (publishMessage sample_env "arn:t" (JStr "done") JUndefined
                (JObj [("__proto__", JStr "x"); ("origin", JStr "s3")]) []))
  = [Publish
       {| TopicArn := "arn:t";
          Message := JStr "done";
          Subject := JStr "Notification";
          MessageAttributes :=
            {| own := [("origin", {| DataType := "String"; StringValue := "s3" |})];
               prototype := Some {| DataType := "String"; StringValue := "x" |} |} |}
       (inr (JObj [("MessageId", JStr "5f1c")]))].
Proof. vm_compute. reflexivity. Qed.

(** An attribute value that cannot be converted to a string, and [null]
    attributes, make [publishMessage] throw before its [try]. *)
Lemma publishMessage_sample_not_prepared :
  publishMessage sample_env "arn:t" (JStr "done") JUndefined
    (JObj [("origin", unprintable)]) []
  = (Throw (MkError "Cannot convert object to primitive value"), [])
  /\ publishMessage sample_env "arn:t" (JStr "done") JUndefined JNull []
     = (Throw (MkError "Cannot convert undefined or null to object"), []).
Proof. split; vm_compute; reflexivity. Qed.

(** An identifier that cannot be converted to a string for the line that
    reports it: the call was made, and its result is not returned. *)
Lemma sample_unprintable_identifiers :
  publishMessage sample_env_unprintable "arn:t" (JStr "done") JUndefined JUndefined []
  = (Throw (MkError "Cannot convert object to primitive value"),
     [ConsoleLog (Publishing (JStr "Notification"));
      Publish {| TopicArn := "arn:t"; Message := JStr "done";
                 Subject := JStr "Notification";
                 MessageAttributes := empty_object |}
        (inr (JObj [("MessageId", unprintable)]));
      ConsoleError PublishFailed
        (MkError "Cannot convert object to primitive value")])
  /\ createTopic sample_env_unprintable "t" []
     = (Throw (MkError "Cannot convert object to primitive value"),
        [CreateTopic {| Name := "t" |} (inr (JObj [("TopicArn", unprintable)]));
         ConsoleError CreateTopicFailed
           (MkError "Cannot convert object to primitive value")]).
Proof. split; vm_compute; reflexivity. Qed.

End SnsFacts.
